(** * Duplicate resolution in the Immich command-line helper

    A shallow embedding of [immichapi.py] (the HTTP client with its
    duplicate-group cache) and of the decision logic of [oneoff.py]
    ([pfx], [best_copy], [dedup], [find_assets_not_in_library]), followed
    by the properties of the duplicate resolution and classification
    engine.

    JSON payloads are rendered as records whose fields carry the JSON keys
    the code reads.  A key that the code reads through [dict.get] with a
    default is an [option] field: [None] is the absent key, and a present
    key holds a value of the field's type.  Python integers are [Z].

    [dict.get] falls back on its default for an absent key only: a key
    that holds JSON [null] gives Python's [None].  The quality scorer is
    the one function here that computes with what it reads in this way, so
    it is embedded twice: as [best_copy_json] on payloads whose exif keys
    may hold [null] ([JsonAsset]), where it can raise, and as [best_copy]
    on payloads whose exif keys are absent or hold integers ([Asset]).
    The same holds for the body of the loop of [dedup], which calls it:
    [dedup_set_json] and [dedup_set].  The catalog of the modelled service
    holds payloads of the second kind, and the properties of [dedup] are
    stated for them; [best_copy_json_encode] and [dedup_set_json_encode]
    show that the two embeddings agree on the payloads they share. *)

From Stdlib Require Import String Ascii List ZArith Bool Arith Lia.
Import ListNotations.
Local Open Scope string_scope.
Local Open Scope list_scope.

(** ** Python built-ins used by the two files *)

Module Py.

(** [s.split(sep)] for a one-character separator: the fields between the
    separators, empty fields included; never the empty list. *)
Fixpoint split (sep : ascii) (s : string) : list string :=
  match s with
  | EmptyString => [EmptyString]
  | String c rest =>
      if Ascii.eqb c sep then EmptyString :: split sep rest
      else match split sep rest with
           | [] => [String c EmptyString]
           | w :: ws => String c w :: ws
           end
  end.

(** [sep.join(fields)]. *)
Definition join (sep : string) (fields : list string) : string :=
  String.concat sep fields.

(** [enumerate(l)]. *)
Definition enumerate {A : Type} (l : list A) : list (nat * A) :=
  combine (seq 0 (length l)) l.

(** [max(l)] on integers; it raises [ValueError] on the empty list, which
    is [None] here. *)
Definition max (l : list Z) : option Z :=
  match l with
  | [] => None
  | x :: xs => Some (fold_left Z.max xs x)
  end.

(** [l[idx] += k].  The indices the code uses come from [enumerate] over
    a list of the same length, so the out-of-range case (an [IndexError]
    in Python) is never reached; the list is left as it is there. *)
Fixpoint add_at (idx : nat) (k : Z) (l : list Z) : list Z :=
  match l, idx with
  | [], _ => []
  | x :: xs, O => (x + k)%Z :: xs
  | x :: xs, S i => x :: add_at i k xs
  end.

(** Truth value of a string and of a list. *)
Definition truthy_str (s : string) : bool :=
  match s with EmptyString => false | _ => true end.

Definition truthy_list {A : Type} (l : list A) : bool :=
  match l with [] => false | _ => true end.

(** A dictionary with string keys, in insertion order. *)
Definition dict (V : Type) : Type := list (string * V).

Fixpoint dict_set {V : Type} (k : string) (v : V) (d : dict V) : dict V :=
  match d with
  | [] => [(k, v)]
  | (k', v') :: d' =>
      if String.eqb k k' then (k, v) :: d' else (k', v') :: dict_set k v d'
  end.

(** [dict(pairs)]: a later pair with an earlier key replaces its value and
    keeps the earlier position. *)
Definition dict_of {V : Type} (pairs : list (string * V)) : dict V :=
  fold_left (fun d kv => dict_set (fst kv) (snd kv) d) pairs [].

Fixpoint dict_get {V : Type} (k : string) (d : dict V) : option V :=
  match d with
  | [] => None
  | (k', v) :: d' => if String.eqb k k' then Some v else dict_get k d'
  end.

End Py.

(** ** The catalog's payloads *)

(** [asset["exifInfo"]]: the three keys [best_copy] reads, spelled as it
    spells them, each absent ([None]) or holding an integer. *)
Record ExifInfo : Type := mkExif {
  fileSizeInbyte : option Z;
  exifImageWidth : option Z;
  exifImageHeight : option Z
}.

Record Asset : Type := mkAsset {
  id : string;
  originalPath : string;
  libraryId : option string;
  visibility : string;
  duplicateId : option string;
  exifInfo : option ExifInfo
}.

(** An entry of [GET /duplicates]. *)
Record DupSet : Type := mkDupSet {
  ds_duplicateId : string;
  assets : list Asset
}.

(** An entry of [GET /libraries]; [get_all_libraries] adds the upload
    pseudo-library with the same two keys. *)
Record Library : Type := mkLibrary {
  lib_id : string;
  lib_name : string
}.

Definition option_eqb {A : Type} (eqb : A -> A -> bool) (x y : option A) : bool :=
  match x, y with
  | None, None => true
  | Some a, Some b => eqb a b
  | _, _ => false
  end.

Definition ExifInfo_eqb (x y : ExifInfo) : bool :=
  option_eqb Z.eqb (fileSizeInbyte x) (fileSizeInbyte y)
  && option_eqb Z.eqb (exifImageWidth x) (exifImageWidth y)
  && option_eqb Z.eqb (exifImageHeight x) (exifImageHeight y).

(** [a == b] on two asset dictionaries: key by key. *)
Definition Asset_eqb (a b : Asset) : bool :=
  String.eqb (id a) (id b)
  && String.eqb (originalPath a) (originalPath b)
  && option_eqb String.eqb (libraryId a) (libraryId b)
  && String.eqb (visibility a) (visibility b)
  && option_eqb String.eqb (duplicateId a) (duplicateId b)
  && option_eqb ExifInfo_eqb (exifInfo a) (exifInfo b).

Definition timeline : string := "timeline".
Definition archive : string := "archive".

(** [ass["visibility"] == "timeline"]. *)
Definition is_timeline (a : Asset) : bool := String.eqb (visibility a) timeline.

(** A key of a JSON object as [dict.get] finds it: missing, holding
    [null], or holding a value. *)
Inductive member (A : Type) : Type :=
| Absent
| Null
| Holds (a : A).

Arguments Absent {A}.
Arguments Null {A}.
Arguments Holds {A} a.

(** [asset["exifInfo"]] and the asset payload with that case: the service
    sends [null] under an exif key whose value it does not know. *)
Record JsonExifInfo : Type := mkJsonExif {
  json_fileSizeInbyte : member Z;
  json_exifImageWidth : member Z;
  json_exifImageHeight : member Z
}.

Record JsonAsset : Type := mkJsonAsset {
  json_id : string;
  json_originalPath : string;
  json_libraryId : option string;
  json_visibility : string;
  json_duplicateId : option string;
  json_exifInfo : member JsonExifInfo
}.

Definition member_eqb {A : Type} (eqb : A -> A -> bool) (x y : member A) : bool :=
  match x, y with
  | Absent, Absent => true
  | Null, Null => true
  | Holds a, Holds b => eqb a b
  | _, _ => false
  end.

Definition JsonExifInfo_eqb (x y : JsonExifInfo) : bool :=
  member_eqb Z.eqb (json_fileSizeInbyte x) (json_fileSizeInbyte y)
  && member_eqb Z.eqb (json_exifImageWidth x) (json_exifImageWidth y)
  && member_eqb Z.eqb (json_exifImageHeight x) (json_exifImageHeight y).

Definition JsonAsset_eqb (a b : JsonAsset) : bool :=
  String.eqb (json_id a) (json_id b)
  && String.eqb (json_originalPath a) (json_originalPath b)
  && option_eqb String.eqb (json_libraryId a) (json_libraryId b)
  && String.eqb (json_visibility a) (json_visibility b)
  && option_eqb String.eqb (json_duplicateId a) (json_duplicateId b)
  && member_eqb JsonExifInfo_eqb (json_exifInfo a) (json_exifInfo b).

(** ** [immichapi.py]: the client *)

Module ImmichApi.

(** The keyword argument of [searchAssets] that [get_library_assets]
    passes. *)
Inductive SearchKey : Type :=
| ByLibraryId (libraryId : string)
| ByDeviceId (deviceId : string).

(** The requests the modelled methods send through [get]. *)
Inductive Request : Type :=
| GetDuplicates
| GetLibraries
| SearchMetadata (key : SearchKey)
| PutAssets (ids : list string) (visibility : string).

(** Modelled from the spec: the catalog service behind the HTTP API, which
    is not part of the repository.  It answers the three read requests and
    applies [updateVisibility(assetIds, visibility)] to the listed assets
    (section 6 of the specification).  [searchAssets] follows [nextPage]
    until there is none; [search] is the concatenation of the pages. *)
Record Server : Type := mkServer {
  duplicates : list DupSet;
  libraries : list Library;
  search : SearchKey -> list Asset
}.

Definition with_visibility (v : string) (a : Asset) : Asset :=
  mkAsset (id a) (originalPath a) (libraryId a) v (duplicateId a) (exifInfo a).

Definition set_visibility (ids : list string) (v : string) (a : Asset) : Asset :=
  if existsb (String.eqb (id a)) ids then with_visibility v a else a.

Definition set_visibility_set (ids : list string) (v : string) (d : DupSet) : DupSet :=
  mkDupSet (ds_duplicateId d) (map (set_visibility ids v) (assets d)).

Definition put_visibility (ids : list string) (v : string) (s : Server) : Server :=
  mkServer (map (set_visibility_set ids v) (duplicates s))
           (libraries s)
           (fun key => map (set_visibility ids v) (search s key)).

(** The attributes of an [ImmichApi] object that the modelled methods use,
    the service it talks to, and the requests sent so far. *)
Record t : Type := mkApi {
  server : Server;
  dup_cache : list DupSet;
  dups_by_duplicateId : Py.dict DupSet;
  sent : list Request
}.

(** [ImmichApi()]: both caches start empty. *)
Definition init (s : Server) : t := mkApi s [] [] [].

(** A method: it runs on the object and either returns a value or raises
    ([None]). *)
Definition M (A : Type) : Type := t -> option A * t.

Definition ret {A : Type} (a : A) : M A := fun st => (Some a, st).

Definition raise {A : Type} : M A := fun st => (None, st).

Definition bind {A B : Type} (m : M A) (k : A -> M B) : M B :=
  fun st =>
    match m st with
    | (Some a, st') => k a st'
    | (None, st') => (None, st')
    end.

(** [for x in l: body(x)]. *)
Fixpoint for_each {A : Type} (l : list A) (body : A -> M unit) : M unit :=
  match l with
  | [] => ret tt
  | x :: xs => bind (body x) (fun _ => for_each xs body)
  end.

(** [for x in l: acc = body(acc, x)], for a loop that appends to a list. *)
Fixpoint for_fold {A S : Type} (l : list A) (body : S -> A -> M S) (acc : S) : M S :=
  match l with
  | [] => ret acc
  | x :: xs => bind (body acc x) (for_fold xs body)
  end.

Definition log (r : Request) (st : t) : t :=
  mkApi (server st) (dup_cache st) (dups_by_duplicateId st) (sent st ++ [r]).

Definition getAssetDuplicates : M (list DupSet) :=
  fun st => (Some (duplicates (server st)), log GetDuplicates st).

Definition getAllLibraries : M (list Library) :=
  fun st => (Some (libraries (server st)), log GetLibraries st).

Definition searchAssets (key : SearchKey) : M (list Asset) :=
  fun st => (Some (search (server st) key), log (SearchMetadata key) st).

(** [updateAssets(assetIds, visibility=v)]. *)
Definition updateAssets (assetIds : list string) (v : string) : M unit :=
  fun st =>
    (Some tt,
     mkApi (put_visibility assetIds v (server st)) (dup_cache st)
           (dups_by_duplicateId st) (sent st ++ [PutAssets assetIds v])).

(** The first three lines of [dups]: fill both caches when [dup_cache] is
    empty. *)
Definition fill_dup_cache : M unit :=
  fun st =>
    if Py.truthy_list (dup_cache st) then (Some tt, st)
    else
      match getAssetDuplicates st with
      | (Some fetched, st') =>
          (Some tt,
           mkApi (server st') fetched
                 (Py.dict_of (map (fun dup_set => (ds_duplicateId dup_set, dup_set)) fetched))
                 (sent st'))
      | (None, st') => (None, st')
      end.

(** [dups()] with no asset: every set of discovered duplicates. *)
Definition dups : M (list DupSet) :=
  bind fill_dup_cache (fun _ st => (Some (dup_cache st), st)).

(** [dups(asset)]: the other members of the asset's set. *)
Definition dups_of (asset : Asset) : M (list Asset) :=
  bind fill_dup_cache (fun _ st =>
    match duplicateId asset with
    | None => (Some [], st)
    | Some dupid =>
        match Py.dict_get dupid (dups_by_duplicateId st) with
        | None => (Some [], st)
        | Some dup_set =>
            (Some (filter (fun dup_asset => negb (Asset_eqb dup_asset asset))
                          (assets dup_set)), st)
        end
    end).

End ImmichApi.

Notation "x <- m ;; k" := (ImmichApi.bind m (fun x => k))
  (at level 61, m at next level, right associativity).
Notation "m ;;; k" := (ImmichApi.bind m (fun _ => k))
  (at level 61, right associativity).

(** ** [oneoff.py]: the command-line class *)

Module ImmichCli.

Import ImmichApi.

Definition upload_device_id : string :=
  "63ae08d41c982c437c6967d4b885fad35668ad555e810dad676807339af70a7a".

Definition slash : ascii := "/"%char.

(** [pfx]: ["/".join(path.split("/")[:3])]. *)
Definition pfx (path : string) : string :=
  Py.join "/" (firstn 3 (Py.split slash path)).

(** [asset.get("exifInfo", {}).get(key, 0)] on a payload whose exif keys
    are absent or hold integers; [int] of an integer is that integer.
    [exif_number] below is the same expression on a payload whose keys may
    hold [null]. *)
Definition exif_get (key : ExifInfo -> option Z) (asset : Asset) : Z :=
  match exifInfo asset with
  | None => 0%Z
  | Some e => match key e with None => 0%Z | Some z => z end
  end.

Definition asset_file_size (asset : Asset) : Z := exif_get fileSizeInbyte asset.

Definition asset_dims (asset : Asset) : Z :=
  (exif_get exifImageWidth asset * exif_get exifImageHeight asset)%Z.

(** One running maximum of the first loop of [best_copy] together with the
    indices that reach it. *)
Definition track (value : Z) (idx : nat) (cur : Z * list nat) : Z * list nat :=
  let (cur_max, cur_idx) := cur in
  if (cur_max <? value)%Z then (value, [idx])
  else if (value =? cur_max)%Z then (cur_max, cur_idx ++ [idx])
  else (cur_max, cur_idx).

(** The first loop: [(max_size, max_size_idx)] and [(max_dims, max_dims_idx)]. *)
Definition scan (assets : list Asset) : (Z * list nat) * (Z * list nat) :=
  fold_left
    (fun st ia =>
       (track (asset_file_size (snd ia)) (fst ia) (fst st),
        track (asset_dims (snd ia)) (fst ia) (snd st)))
    (Py.enumerate assets)
    ((0%Z, []), (0%Z, [])).

(** [for idx in idxs: scores[idx] += k]. *)
Definition award (k : Z) (idxs : list nat) (scores : list Z) : list Z :=
  fold_left (fun sc idx => Py.add_at idx k sc) idxs scores.

Definition scores_of (assets : list Asset) : list Z :=
  let st := scan assets in
  award 8 (snd (snd st)) (award 2 (snd (fst st)) (repeat 0%Z (length assets))).

(** [[assets[n] for n in range(len(assets)) if scores[n] == max_score]]. *)
Definition max_scorers_of (assets : list Asset) (scores : list Z) (max_score : Z) : list Asset :=
  map fst (filter (fun p => (snd p =? max_score)%Z) (combine assets scores)).

(** [best_copy]; [None] is the [ValueError] that [max] raises on an empty
    list. *)
Definition best_copy (assets : list Asset) : option Asset :=
  let scores := scores_of assets in
  match Py.max scores with
  | None => None
  | Some max_score =>
      let max_scorers := max_scorers_of assets scores max_score in
      match (if existsb is_timeline max_scorers then find is_timeline max_scorers else None) with
      | Some ass => Some ass
      | None =>
          match find (fun p => (snd p =? max_score)%Z) (combine assets scores) with
          | Some p => Some (fst p)
          | None => hd_error assets
          end
      end
  end.

(** [asset.get("exifInfo", {}).get(key, 0)] used as a number.  The
    default stands in for an absent key only.  [None] is the exception the
    code runs into otherwise: [None.get] (an [AttributeError]) when
    ["exifInfo"] holds [null], and [None > max_size] or [int(None)] (a
    [TypeError]) when the key itself does. *)
Definition exif_number (key : JsonExifInfo -> member Z) (asset : JsonAsset) : option Z :=
  match json_exifInfo asset with
  | Absent => Some 0%Z
  | Null => None
  | Holds e =>
      match key e with
      | Absent => Some 0%Z
      | Null => None
      | Holds z => Some z
      end
  end.

(** The first loop of [best_copy] on such payloads: once an iteration has
    raised, there is no state to go on with. *)
Definition scan_json (assets : list JsonAsset) : option ((Z * list nat) * (Z * list nat)) :=
  fold_left
    (fun st ia =>
       match st with
       | None => None
       | Some st =>
           match exif_number json_fileSizeInbyte (snd ia) with
           | None => None
           | Some asset_file_size =>
               match exif_number json_exifImageWidth (snd ia),
                     exif_number json_exifImageHeight (snd ia) with
               | Some asset_width, Some asset_height =>
                   Some (track asset_file_size (fst ia) (fst st),
                         track (asset_width * asset_height)%Z (fst ia) (snd st))
               | _, _ => None
               end
           end
       end)
    (Py.enumerate assets)
    (Some ((0%Z, []), (0%Z, []))).

Definition json_is_timeline (a : JsonAsset) : bool :=
  String.eqb (json_visibility a) timeline.

(** [best_copy] on payloads whose exif keys may hold [null]; [None] is an
    exception: the one of the first loop, or the [ValueError] of [max] on
    an empty list. *)
Definition best_copy_json (assets : list JsonAsset) : option JsonAsset :=
  match scan_json assets with
  | None => None
  | Some st =>
      let scores :=
        award 8 (snd (snd st)) (award 2 (snd (fst st)) (repeat 0%Z (length assets))) in
      match Py.max scores with
      | None => None
      | Some max_score =>
          let max_scorers :=
            map fst (filter (fun p => (snd p =? max_score)%Z) (combine assets scores)) in
          match (if existsb json_is_timeline max_scorers
                 then find json_is_timeline max_scorers else None) with
          | Some ass => Some ass
          | None =>
              match find (fun p => (snd p =? max_score)%Z) (combine assets scores) with
              | Some p => Some (fst p)
              | None => hd_error assets
              end
          end
      end
  end.

(** What a command handler hands back to [__call__], which passes it to
    [json.dumps]: Python's [None], or a dictionary of counters. *)
Inductive value : Type :=
| PyNone
| PyDict (d : Py.dict Z).

Section Engine.

(** [self.path_prefix_priority_list]. *)
Variable priority_list : list string.

(** [any(self.pfx(ass["originalPath"]) == prefix for ass in dup_set)]. *)
Definition has_prefix (prefix : string) (dup_set : list Asset) : bool :=
  existsb (fun ass => String.eqb (pfx (originalPath ass)) prefix) dup_set.

(** The inner loop of [dedup] over the priority list, with its [break];
    [None] is the initial [blessed_prefix = None]. *)
Definition blessed_prefix_of (dup_set : list Asset) : option string :=
  find (fun prefix => has_prefix prefix dup_set) priority_list.

Definition in_prefix (prefix : string) (ass : Asset) : bool :=
  String.eqb (pfx (originalPath ass)) prefix.

(** The first [to_archive] of [dedup]. *)
Definition cross_location (blessed_prefix : string) (dup_set : list Asset) : list string :=
  map id (filter (fun ass => is_timeline ass && negb (in_prefix blessed_prefix ass)) dup_set).

Definition blessed_copies_of (blessed_prefix : string) (dup_set : list Asset) : list Asset :=
  filter (in_prefix blessed_prefix) dup_set.

(** The second [to_archive] of [dedup]. *)
Definition all_but (keeper : Asset) (dup_set : list Asset) : list string :=
  map id (filter (fun ass => negb (Asset_eqb ass keeper)) dup_set).

(** The body of the loop of [dedup] over the duplicate sets; returning
    early is the [continue]. *)
Definition dedup_set (dup_set : list Asset) : M unit :=
  match blessed_prefix_of dup_set with
  | None => ret tt
  | Some blessed_prefix =>
      if negb (Py.truthy_str blessed_prefix) then ret tt
      else
        let to_archive := cross_location blessed_prefix dup_set in
        (if Py.truthy_list to_archive then updateAssets to_archive archive else ret tt) ;;;
        let blessed_copies := blessed_copies_of blessed_prefix dup_set in
        if Nat.ltb 1 (length blessed_copies) then
          match best_copy blessed_copies with
          | None => raise
          | Some keeper =>
              let to_archive := all_but keeper dup_set in
              if Py.truthy_list to_archive then
                updateAssets to_archive archive ;;;
                updateAssets [id keeper] timeline
              else ret tt
          end
        else ret tt
  end.

(** [dedup]: it has no [return], so it hands back [None]. *)
Definition dedup : M value :=
  all <- dups ;;
  for_each (map assets all) dedup_set ;;;
  ret PyNone.

Definition json_in_prefix (prefix : string) (ass : JsonAsset) : bool :=
  String.eqb (pfx (json_originalPath ass)) prefix.

(** The body of the loop of [dedup] for a duplicate set whose exif keys
    may hold [null]: the same statements with [best_copy_json] for the
    scorer.  [dedup] has no handler around the call, so that what the
    scorer raises ends the run, after the first batch of the set has been
    sent. *)
Definition dedup_set_json (dup_set : list JsonAsset) : M unit :=
  match find (fun prefix => existsb (json_in_prefix prefix) dup_set) priority_list with
  | None => ret tt
  | Some blessed_prefix =>
      if negb (Py.truthy_str blessed_prefix) then ret tt
      else
        let to_archive :=
          map json_id
              (filter (fun ass => json_is_timeline ass
                                  && negb (json_in_prefix blessed_prefix ass)) dup_set) in
        (if Py.truthy_list to_archive then updateAssets to_archive archive else ret tt) ;;;
        let blessed_copies := filter (json_in_prefix blessed_prefix) dup_set in
        if Nat.ltb 1 (length blessed_copies) then
          match best_copy_json blessed_copies with
          | None => raise
          | Some keeper =>
              let to_archive :=
                map json_id (filter (fun ass => negb (JsonAsset_eqb ass keeper)) dup_set) in
              if Py.truthy_list to_archive then
                updateAssets to_archive archive ;;;
                updateAssets [json_id keeper] timeline
              else ret tt
          end
        else ret tt
  end.

End Engine.

(** The list the class defines. *)
Definition path_prefix_priority_list : list string :=
  [ "/photos/wedding";
    "/photos/undisposed";
    "/photos/sarah";
    "/dropbox/may-mays_and_gifs";
    "/photos/misc";
    "/photos/img";
    "/photos/digital";
    "/photos/2007-01 bink Pictures";
    "/photos/2021-06-15 photos";
    "/photos/kittens";
    "/photos/blackhat_2010";
    "/photos/STScI-01G7ETPF7DVBJAC42JR5N6EQRH.png";
    "/photos/lighthouse";
    "/photos/LIT-18616-03-73";
    "/photos/DEF CON 29 pictures";
    "/photos/rochester";
    "/photos/hawks.png";
    "/photos/ac";
    "/photos/masonlake";
    "/photos/bp98-positron";
    "/photos/headshot candidates";
    "/photos/enhjr0thbday";
    "/photos/van";
    "/photos/osprey.jpg";
    "/photos/win Pictures";
    "/photos/sign";
    "/photos/tord";
    "/photos/space";
    "/photos/home";
    "/photos/shadok-party";
    "/photos/rock";
    "/photos/photos";
    "/photos/OneDrive 2023-10-17";
    "/photos/vacation";
    "/photos/xj";
    "/photos/DEF CON 30 pictures";
    "/photos/office";
    "/photos/nyc";
    "/photos/corner";
    "/photos/calendar photos from sarah November 2024";
    "/photos/f150.jpg";
    "/photos/DC30";
    "/photos/home_infra";
    "/photos/old panasonic card";
    "/photos/spiral_colors.jpg";
    "/photos/dilbert";
    "/photos/olympic";
    "/photos/orcas";
    "/photos/kitties";
    "/photos/PICTURES";
    "/photos/kubernetes.svg";
    "/photos/Holm ink monsters";
    "/photos/Universal 2018";
    "/photos/Max Encompass 2013";
    "/photos/Max Innotab photos 2015";
    "/photos/Max Encompass 2014";
    "/photos/rosen";
    "upload/upload/d8fbf34b-0e56-43dd-87b3-b7774f6b3f3b";
    "/photos/gopro";
    "/photos/disk1 photos";
    "/photos/GooglePhotos";
    "/photos/rescued_from_aperture";
    "/photos/downloaded photo zips";
    "/photos/from iphone";
    "/photos/PhotoStream";
    "/photos/icloud";
    "/photos/photos 2017-08-31";
    "/photos/fuck you apple";
    "/photos/icloud backup";
    "/photos/iphone_photos_20180103 PARTIAL you suck windows";
    "/photos/iphone_photos_partial_backup_20180103";
    "/dropbox/Camera Uploads";
    "/photos/backup" ].

(** [get_all_libraries]: the libraries by id, and the upload pseudo-library. *)
Definition get_all_libraries : M (Py.dict Library) :=
  all <- getAllLibraries ;;
  ret (Py.dict_set upload_device_id (mkLibrary upload_device_id "upload")
         (Py.dict_of (map (fun library => (lib_id library, library)) all))).

Definition get_library_assets (libId : string) : M (list Asset) :=
  if String.eqb libId upload_device_id then searchAssets (ByDeviceId upload_device_id)
  else searchAssets (ByLibraryId libId).

(** Truth value of [targetLibraryId]: [None] and the empty string are
    false. *)
Definition truthy_id (i : option string) : bool :=
  match i with None => false | Some s => Py.truthy_str s end.

(** [libraryId not in [asset["libraryId"] for asset in siblings]]. *)
Definition not_among_libraries (libId : string) (siblings : list Asset) : bool :=
  negb (existsb (fun sibling => option_eqb String.eqb (Some libId) (libraryId sibling)) siblings).

(** The body of the inner loop of [find_assets_not_in_library]. *)
Definition classify (libId : string) (acc : list Asset) (asset : Asset) : M (list Asset) :=
  match duplicateId asset with
  | None => ret (acc ++ [asset])
  | Some _ =>
      siblings <- dups_of asset ;;
      if not_among_libraries libId siblings then ret (acc ++ [asset]) else ret acc
  end.

Definition find_assets_not_in_library (targetLibraryId : option string) : M (list Asset) :=
  if negb (truthy_id targetLibraryId) then ret []
  else
    libraries <- get_all_libraries ;;
    again <- get_all_libraries ;;
    for_fold again
      (fun acc entry =>
         let libId := fst entry in
         if option_eqb String.eqb (Some libId) targetLibraryId then ret acc
         else
           found <- get_library_assets libId ;;
           for_fold found (classify libId) acc)
      [].

End ImmichCli.

(** * Auxiliary definitions for the statements *)

Import ImmichApi ImmichCli.

(** The quality attributes of an asset as the specification's data model
    has them: byte size, pixel width and pixel height, each 0 when it is
    unknown; the pixel area is the width times the height. *)
Definition known (v : option Z) : Z :=
  match v with
  | Some z => z
  | None => 0%Z
  end.

Definition byte_size (a : Asset) : Z :=
  match exifInfo a with
  | Some e => known (fileSizeInbyte e)
  | None => 0%Z
  end.

Definition pixel_width (a : Asset) : Z :=
  match exifInfo a with
  | Some e => known (exifImageWidth e)
  | None => 0%Z
  end.

Definition pixel_height (a : Asset) : Z :=
  match exifInfo a with
  | Some e => known (exifImageHeight e)
  | None => 0%Z
  end.

Definition pixel_area (a : Asset) : Z := (pixel_width a * pixel_height a)%Z.

(** The largest of 0 and the values of [f] over the list: the value a
    running maximum of [best_copy] ends with, since it starts at 0. *)
Definition running_max (f : Asset -> Z) (l : list Asset) : Z :=
  fold_left Z.max (map f l) 0%Z.

(** The indices, counted from [start], of the elements whose value is [m]. *)
Definition positions (f : Asset -> Z) (m : Z) (start : nat) (l : list Asset) : list nat :=
  map fst (filter (fun ia => (f (snd ia) =? m)%Z) (combine (seq start (length l)) l)).

Definition track_all (f : Asset -> Z) (l : list Asset) : Z * list nat :=
  fold_left (fun cur ia => track (f (snd ia)) (fst ia) cur) (Py.enumerate l) (0%Z, []).

(** The score [best_copy] gives a candidate, in closed form. *)
Definition score_against (max_size max_dims : Z) (a : Asset) : Z :=
  ((if (asset_file_size a =? max_size)%Z then 2 else 0)
   + (if (asset_dims a =? max_dims)%Z then 8 else 0))%Z.

(** A candidate attains the maximum of [f] over the candidates. *)
Definition attains_max (f : Asset -> Z) (candidates : list Asset) (a : Asset) : bool :=
  forallb (fun b => (f b <=? f a)%Z) candidates.

(** The score as the specification words it: +2 for attaining the maximum
    byte size over the candidates, +8 for attaining the maximum pixel
    area. *)
Definition score (candidates : list Asset) (a : Asset) : Z :=
  ((if attains_max byte_size candidates a then 2 else 0)
   + (if attains_max pixel_area candidates a then 8 else 0))%Z.


(** The score with the maxima taken from 0 upwards. *)
Definition floor_score (candidates : list Asset) (a : Asset) : Z :=
  ((if (byte_size a =? running_max byte_size candidates)%Z then 2 else 0)
   + (if (pixel_area a =? running_max pixel_area candidates)%Z then 8 else 0))%Z.


(** The effect of one request on one asset of the catalog. *)
Definition apply_request (r : Request) (a : Asset) : Asset :=
  match r with
  | PutAssets ids v => set_visibility ids v a
  | _ => a
  end.

Definition apply_all (requests : list Request) (a : Asset) : Asset :=
  fold_left (fun x r => apply_request r x) requests a.

(** The client after one more request has been sent and answered. *)
Definition issue (st : ImmichApi.t) (r : Request) : ImmichApi.t :=
  mkApi (match r with
         | PutAssets ids v => put_visibility ids v (server st)
         | _ => server st
         end)
        (dup_cache st) (dups_by_duplicateId st) (sent st ++ [r]).

(** The archive batch of the first phase: sent only when it is not empty. *)
Definition cross_location_batch (blessed_prefix : string) (dup_set : list Asset) : list Request :=
  if Py.truthy_list (cross_location blessed_prefix dup_set)
  then [PutAssets (cross_location blessed_prefix dup_set) archive]
  else [].

(** The two batches of the second phase for a given keeper. *)
Definition keeper_batches (keeper : Asset) (dup_set : list Asset) : list Request :=
  if Py.truthy_list (all_but keeper dup_set)
  then [PutAssets (all_but keeper dup_set) archive; PutAssets [id keeper] timeline]
  else [].

(** The requests [dedup] sends for one duplicate set, in order. *)
Definition plan (priority_list : list string) (dup_set : list Asset) : list Request :=
  match blessed_prefix_of priority_list dup_set with
  | None => []
  | Some blessed_prefix =>
      if negb (Py.truthy_str blessed_prefix) then []
      else
        cross_location_batch blessed_prefix dup_set
        ++ (if Nat.ltb 1 (length (blessed_copies_of blessed_prefix dup_set)) then
              match best_copy (blessed_copies_of blessed_prefix dup_set) with
              | None => []
              | Some keeper => keeper_batches keeper dup_set
              end
            else [])
  end.

(** The client once [dups] has filled its caches from the service. *)
Definition fetched (srv : Server) : ImmichApi.t :=
  mkApi srv (duplicates srv)
        (Py.dict_of (map (fun dup_set => (ds_duplicateId dup_set, dup_set)) (duplicates srv)))
        [GetDuplicates].

(** The members of a duplicate set once the requests [dedup] sends for it
    have been applied, in closed form. *)
Definition keep_only (keeper : Asset) (a : Asset) : Asset :=
  if Asset_eqb a keeper then with_visibility timeline a else with_visibility archive a.



(** Every asset id of the catalog's duplicate listing, in order. *)
Definition all_ids (sets : list DupSet) : list string :=
  map id (flat_map assets sets).


(** ** Example catalogs *)

Definition photo (i path v : string) (size width height : Z) : Asset :=
  mkAsset i path (Some "lib-photos") v (Some "dup-1")
          (Some (mkExif (Some size) (Some width) (Some height))).

Definition catalog_of (members : list Asset) : Server :=
  mkServer [mkDupSet "dup-1" members] [] (fun _ => []).

Definition wedding_small (v : string) : Asset :=
  photo "A" "/photos/wedding/a.jpg" v 100 20 10.

Definition wedding_large (v : string) : Asset :=
  photo "B" "/photos/wedding/b.jpg" v 200 20 10.

Definition misc_copy (v : string) : Asset :=
  photo "C" "/photos/misc/c.jpg" v 200 20 10.

(** A copy with more bytes and a copy with more pixels. *)
Definition heavy_copy (v : string) : Asset :=
  photo "A" "/photos/wedding/a.jpg" v 900 20 10.

Definition sharp_copy (v : string) : Asset :=
  photo "B" "/photos/wedding/b.jpg" v 500 40 30.

Definition heavy_and_sharp : list Asset :=
  [heavy_copy timeline; sharp_copy archive].

(** Two copies with the same quality, the second one on the timeline. *)
Definition tied_pair : list Asset :=
  [wedding_large archive; wedding_large timeline].

(** The better copy archived, the lesser one on the timeline. *)
Definition better_archived : list Asset :=
  [wedding_small timeline; wedding_large archive; wedding_large archive].


(** Two copies under the blessed prefix, already as a run leaves them. *)
Definition settled_pair : list Asset :=
  [wedding_small archive; wedding_large timeline].

(** Two copies under the blessed prefix and an archived copy elsewhere,
    before and after a run. *)
Definition pair_and_outsider : list Asset :=
  [wedding_small timeline; wedding_large timeline; misc_copy archive].

Definition pair_and_outsider_after : list Asset :=
  [wedding_small archive; wedding_large timeline; misc_copy archive].

(** No copy under a listed prefix. *)
Definition unlisted_pair : list Asset :=
  [photo "A" "/elsewhere/x/a.jpg" timeline 500 10 10;
   photo "B" "/elsewhere/y/b.jpg" timeline 900 10 5].

Definition wedding : string := "/photos/wedding".

(** ** Payloads with [null] *)

(** A payload of [Asset] as the JSON object it is: no key holds [null]. *)
Definition encode_key (v : option Z) : member Z :=
  match v with
  | None => Absent
  | Some z => Holds z
  end.

Definition encode_exif (e : ExifInfo) : JsonExifInfo :=
  mkJsonExif (encode_key (fileSizeInbyte e))
             (encode_key (exifImageWidth e))
             (encode_key (exifImageHeight e)).

Definition encode (a : Asset) : JsonAsset :=
  mkJsonAsset (id a) (originalPath a) (libraryId a) (visibility a) (duplicateId a)
              (match exifInfo a with
               | None => Absent
               | Some e => Holds (encode_exif e)
               end).

Definition holds_null {A : Type} (m : member A) : bool :=
  match m with
  | Null => true
  | _ => false
  end.

(** ["exifInfo"], or one of the three keys [best_copy] reads in it, holds
    [null]. *)
Definition reads_null (a : JsonAsset) : bool :=
  match json_exifInfo a with
  | Absent => false
  | Null => true
  | Holds e =>
      holds_null (json_fileSizeInbyte e)
      || holds_null (json_exifImageWidth e)
      || holds_null (json_exifImageHeight e)
  end.

(** A still and a video of the same scene under the blessed prefix, and a
    visible copy elsewhere; the video has [null] for its dimensions. *)
Definition still_and_clip : list JsonAsset :=
  [encode (wedding_large timeline);
   mkJsonAsset "V" "/photos/wedding/v.mov" (Some "lib-photos") timeline (Some "dup-1")
               (Holds (mkJsonExif (Holds 4096%Z) Null Null));
   encode (misc_copy timeline)].

(** A video: the service knows its size and has no pixel dimensions for
    it.  Once without the two keys, once with [null] under them, once with
    [null] for the whole of ["exifInfo"]. *)
Definition clip (e : member JsonExifInfo) : JsonAsset :=
  mkJsonAsset "V" "/photos/wedding/v.mov" (Some "lib-photos") timeline (Some "dup-1") e.

Definition clip_without_dimensions : JsonAsset :=
  clip (Holds (mkJsonExif (Holds 4096%Z) Absent Absent)).

Definition clip_null_dimensions : JsonAsset :=
  clip (Holds (mkJsonExif (Holds 4096%Z) Null Null)).

Definition clip_null_exif : JsonAsset := clip Null.

(** ** Paths *)

(** The string holds no separator: it is one field of a path. *)
Fixpoint no_slash (s : string) : bool :=
  match s with
  | EmptyString => true
  | String c rest => negb (Ascii.eqb c slash) && no_slash rest
  end.

(** The first [n] fields of a path between slashes, joined by slashes. *)
Definition leading_fields (n : nat) (path : string) : string :=
  Py.join "/" (firstn n (Py.split slash path)).

(** The components of a path: its non-empty fields. *)
Definition components (path : string) : list string :=
  filter Py.truthy_str (Py.split slash path).

(** The prefix formed by the first two components of a path, as the
    specification words it: [/photos/wedding] for [/photos/wedding/a.jpg]. *)
Definition first_two_components (path : string) : string :=
  ((match path with
    | String c _ => if Ascii.eqb c slash then "/" else ""
    | EmptyString => ""
    end) ++ Py.join "/" (firstn 2 (components path))).

Definition upload_path : string :=
  "upload/upload/d8fbf34b-0e56-43dd-87b3-b7774f6b3f3b/ab/cd/photo.jpg".

(** ** Example libraries *)

Definition in_one : Asset :=
  mkAsset "A" "/photos/wedding/a.jpg" (Some "lib-one") timeline (Some "dup-1") None.

Definition in_target : Asset :=
  mkAsset "B" "/dropbox/Camera Uploads/a.jpg" (Some "lib-target") timeline (Some "dup-1") None.

Definition also_in_one : Asset :=
  mkAsset "C" "/photos/misc/a.jpg" (Some "lib-one") timeline (Some "dup-1") None.

Definition the_libraries : list Library :=
  [mkLibrary "lib-one" "one"; mkLibrary "lib-target" "target"].

(** An asset of library [lib-one] whose duplicate is in [lib-target]. *)
Definition reaches_target : Server :=
  mkServer [mkDupSet "dup-1" [in_one; in_target]] the_libraries
           (fun key =>
              match key with
              | ByLibraryId l =>
                  if String.eqb l "lib-one" then [in_one]
                  else if String.eqb l "lib-target" then [in_target] else []
              | ByDeviceId _ => []
              end).

(** Two duplicates in library [lib-one], nothing in [lib-target]. *)
Definition stays_in_one : Server :=
  mkServer [mkDupSet "dup-1" [in_one; also_in_one]] the_libraries
           (fun key =>
              match key with
              | ByLibraryId l => if String.eqb l "lib-one" then [in_one; also_in_one] else []
              | ByDeviceId _ => []
              end).


(** * The rest of [immichapi.py] and [oneoff.py] *)

(** ** String methods *)

Module PyStr.

(** [s.startswith(prefix)]. *)
Definition startswith (s prefix : string) : bool := String.prefix prefix s.

(** [s.endswith(suffix)]. *)
Fixpoint endswith (s suffix : string) : bool :=
  String.eqb s suffix
  || match s with
     | EmptyString => false
     | String _ rest => endswith rest suffix
     end.

(** [s.lstrip(c)] for a one-character argument. *)
Fixpoint lstrip (c : ascii) (s : string) : string :=
  match s with
  | EmptyString => EmptyString
  | String a rest => if Ascii.eqb a c then lstrip c rest else s
  end.

(** [s.replace(old, new)] for a non-empty [old]: the occurrences of [old]
    from the left, without overlap.  [skip] counts the characters of an
    occurrence that are still to be passed over. *)
Fixpoint replace_from (old new : string) (skip : nat) (s : string) : string :=
  match s with
  | EmptyString => EmptyString
  | String a rest =>
      match skip with
      | S k => replace_from old new k rest
      | O =>
          if String.prefix old s
          then (new ++ replace_from old new (String.length old - 1) rest)%string
          else String a (replace_from old new 0 rest)
      end
  end.

Definition replace (old new s : string) : string := replace_from old new 0 s.

End PyStr.

(** ** [immichapi.py]: paths *)

(** [fix_path]. *)
Definition fix_path (path : string) : string :=
  let path := PyStr.lstrip slash path in
  if negb (PyStr.endswith path "/") then (path ++ "/")%string else path.

(** ** [oneoff.py]: where an original is stored *)

(** [find_true_path]; [None] is the exception it raises. *)
Definition find_true_path (path : string) : option string :=
  let path := if negb (PyStr.startswith path "/") then ("/" ++ path)%string else path in
  if PyStr.startswith path "/dropbox" then Some ("/mnt" ++ path)%string
  else if PyStr.startswith path "/photos" then Some ("/mnt/files" ++ path)%string
  else if PyStr.startswith path "upload"
       then Some (PyStr.replace "upload/upload" "/mnt/files/immich/upload" path)
  else None.

(** ** [immichapi.py]: requests *)

(** The JSON values the modelled request bodies hold. *)
Inductive Json : Type :=
| JNull
| JBool (b : bool)
| JNum (z : Z)
| JStr (s : string)
| JIds (ids : list string).

(** [k in d]. *)
Definition dict_mem {V : Type} (k : string) (d : Py.dict V) : bool :=
  existsb (fun kv => String.eqb k (fst kv)) d.

(** The headers [get] sends: the caller's, when it gives any, completed
    with those of the client that it does not name. *)
Definition get_headers {V : Type} (self_headers : Py.dict V)
           (req_headers : option (Py.dict V)) : Py.dict V :=
  match req_headers with
  | None => self_headers
  | Some given =>
      if Py.truthy_list given then
        fold_left
          (fun headers kv =>
             if negb (dict_mem (fst kv) headers)
             then Py.dict_set (fst kv) (snd kv) headers else headers)
          self_headers given
      else self_headers
  end.

Definition update_allowed_keys : list string :=
  ["dateTimeOriginal"; "duplicateId"; "visibility"; "isFavorite"; "latitude";
   "longitude"; "rating"].

(** The loop of [updateAssets] over its keyword arguments; [None] is the
    exception for a key that is not allowed. *)
Fixpoint update_body (kwargs : list (string * Json)) (body : Py.dict Json)
  : option (Py.dict Json) :=
  match kwargs with
  | [] => Some body
  | (k, v) :: rest =>
      if negb (existsb (String.eqb k) update_allowed_keys) then None
      else update_body rest (Py.dict_set k v body)
  end.

(** [updateAssets(assetIds, **kwargs)]: the body it passes to [get] for
    [PUT /assets], or [None] when it raises before. *)
Definition updateAssets_body (assetIds : list string) (kwargs : list (string * Json))
  : option (Py.dict Json) :=
  match update_body kwargs [] with
  | None => None
  | Some body => Some (Py.dict_set "ids" (JIds assetIds) body)
  end.

(** What a method with one request at most comes to. *)
Inductive attempt : Type :=
| Raises
| ReturnsAtOnce
| Puts (body : Py.dict Json).

(** [archive_assets]. *)
Definition archive_assets (assetIds : list string) : attempt :=
  if negb (Py.truthy_list assetIds) then ReturnsAtOnce
  else match updateAssets_body assetIds [("isArchived", JBool true)] with
       | None => Raises
       | Some body => Puts body
       end.

(** Truth value of a JSON value. *)
Definition truthy_json (j : Json) : bool :=
  match j with
  | JNull => false
  | JBool b => b
  | JNum z => negb (z =? 0)%Z
  | JStr s => Py.truthy_str s
  | JIds ids => Py.truthy_list ids
  end.

(** The part of an answer to [POST /search/metadata] that [searchAssets]
    reads: [result["assets"]["items"]] and [result["assets"]["nextPage"]],
    which may be absent. *)
Record SearchPage : Type := mkSearchPage {
  items : list Asset;
  nextPage : option Json
}.

(** The loop of [searchAssets], for the service's answer [respond] to a
    request for a page: the assets it yields to a consumer that takes them
    all, and the pages it has requested.  The loop runs as long as the
    service names a next page; [fuel] bounds the number of requests, and
    [None] is the bound reached. *)
Fixpoint searchAssets_from (respond : Json -> SearchPage) (fuel : nat) (page : Json)
  : option (list Asset * list Json) :=
  if negb (truthy_json page) then Some ([], [])
  else
    match fuel with
    | O => None
    | S fuel' =>
        let result := respond page in
        match searchAssets_from respond fuel'
                (match nextPage result with None => JNull | Some next => next end) with
        | None => None
        | Some (yielded, requested) => Some (items result ++ yielded, page :: requested)
        end
    end.

(** [searchAssets] with its keyword arguments: the first page is
    [kwargs["page"]], or 1. *)
Definition searchAssets_pages (respond : Json -> SearchPage) (fuel : nat)
           (page : option Json) : option (list Asset * list Json) :=
  searchAssets_from respond fuel (match page with None => JNum 1 | Some p => p end).

(** The pages the service leads through from a page on: each names the
    next, and the last names none, or one that counts as false. *)
Inductive leads_through (respond : Json -> SearchPage) : Json -> list Json -> Prop :=
| leads_nowhere (page : Json) :
    truthy_json page = false -> leads_through respond page []
| leads_on (page : Json) (rest : list Json) :
    truthy_json page = true ->
    leads_through respond
      (match nextPage (respond page) with None => JNull | Some next => next end) rest ->
    leads_through respond page (page :: rest).

(** A service with three pages. *)
Definition three_pages (page : Json) : SearchPage :=
  match page with
  | JNum 1 => mkSearchPage [wedding_small timeline] (Some (JStr "2"))
  | JStr "2" => mkSearchPage [wedding_large timeline] (Some (JStr "3"))
  | _ => mkSearchPage [misc_copy archive] None
  end.

(** ** [oneoff.py]: single-stored assets *)

(** [find_all_single_stored_assets], as [list_single_stored_assets] calls
    it: with [printMatches] false. *)
Definition find_all_single_stored_assets : M (list (string * Asset)) :=
  libraries <- get_all_libraries ;;
  again <- get_all_libraries ;;
  for_fold again
    (fun acc entry =>
       found <- get_library_assets (fst entry) ;;
       for_fold found
         (fun acc asset =>
            match duplicateId asset with
            | None => ret (acc ++ [(lib_name (snd entry), asset)])
            | Some _ => ret acc
            end)
         acc)
    [].

(** ** Auxiliary definitions for the further statements *)

(** [dups()] called [n] times in a row. *)
Definition dups_times (n : nat) : M unit :=
  for_each (repeat tt n) (fun _ => dups ;;; ret tt).

(** The other members of the last duplicate set of the listing that has
    the asset's duplicate id. *)
Definition siblings_in (listing : list DupSet) (asset : Asset) : list Asset :=
  match duplicateId asset with
  | None => []
  | Some dupid =>
      match find (fun d => String.eqb dupid (ds_duplicateId d)) (rev listing) with
      | None => []
      | Some d => filter (fun other => negb (Asset_eqb other asset)) (assets d)
      end
  end.

(** The caches of the client are empty, or hold the service's listing. *)
Definition synced (st : ImmichApi.t) : Prop :=
  (dup_cache st = [] /\ dups_by_duplicateId st = [])
  \/ (dup_cache st = duplicates (server st)
      /\ dups_by_duplicateId st =
         Py.dict_of (map (fun dup_set => (ds_duplicateId dup_set, dup_set))
                         (duplicates (server st)))).

(** From [st] to [st'] the service is the same, and the requests sent are
    all [allowed]. *)
Definition sends_only (allowed : Request -> Prop) (st st' : ImmichApi.t) : Prop :=
  server st' = server st
  /\ exists requests, sent st' = sent st ++ requests /\ Forall allowed requests.

(** The dictionary [get_all_libraries] builds from the service's
    libraries. *)
Definition libraries_by_id (listing : list Library) : Py.dict Library :=
  Py.dict_set upload_device_id (mkLibrary upload_device_id "upload")
    (Py.dict_of (map (fun library => (lib_id library, library)) listing)).

(** The search [get_library_assets] makes for a library id. *)
Definition search_key (libId : string) : SearchKey :=
  if String.eqb libId upload_device_id then ByDeviceId upload_device_id
  else ByLibraryId libId.

Definition is_read (r : Request) : Prop :=
  match r with PutAssets _ _ => False | _ => True end.

(** The client after further requests that leave the service as it is. *)
Definition logged (requests : list Request) (st : ImmichApi.t) : ImmichApi.t :=
  mkApi (server st) (dup_cache st) (dups_by_duplicateId st) (sent st ++ requests).

(** [asset.get("duplicateId", None) is None]. *)
Definition no_duplicateId (asset : Asset) : bool :=
  match duplicateId asset with None => true | Some _ => false end.

(** The test of [find_assets_not_in_library] on an asset enumerated from
    the library [libId], given the duplicate listing. *)
Definition listed_from (listing : list DupSet) (libId : string) (asset : Asset) : bool :=
  no_duplicateId asset || not_among_libraries libId (siblings_in listing asset).

(** The requests [find_assets_not_in_library] may send for a target. *)
Definition reads_around (target : option string) (r : Request) : Prop :=
  r = GetLibraries \/ r = GetDuplicates
  \/ exists libId, Some libId <> target /\ r = SearchMetadata (search_key libId).

(** What the requests [dedup] sends for a duplicate set make of an asset
    [a'] that has the id of the member [a] of the set. *)
Definition settle (priority_list : list string) (dup_set : list Asset) (a a' : Asset) : Asset :=
  match blessed_prefix_of priority_list dup_set with
  | None => a'
  | Some blessed_prefix =>
      if negb (Py.truthy_str blessed_prefix) then a'
      else if Nat.ltb 1 (length (blessed_copies_of blessed_prefix dup_set)) then
        match best_copy (blessed_copies_of blessed_prefix dup_set) with
        | None => a'
        | Some keeper =>
            if Asset_eqb a keeper then with_visibility timeline a'
            else with_visibility archive a'
        end
      else if is_timeline a && negb (in_prefix blessed_prefix a)
           then with_visibility archive a' else a'
  end.

(** ** [oneoff.py]: the loops at the end of the file *)

(** [all(ass["visibility"] == "archive" for ass in dup_set)]. *)
Definition all_archived (dup_set : list Asset) : bool :=
  forallb (fun ass => String.eqb (visibility ass) archive) dup_set.

(** The loop that counts the duplicate sets whose members are all
    archived. *)
Definition count_archived_sets : M nat :=
  all <- dups ;;
  ret (length (filter all_archived (map assets all))).

(** The body of the last loop. *)
Definition restore_set (dup_set : list Asset) : M unit :=
  if all_archived dup_set then updateAssets (map id dup_set) timeline else ret tt.

(** The last loop: every duplicate set whose members are all archived is
    put back on the timeline. *)
Definition restore_archived_sets : M unit :=
  all <- dups ;;
  for_each (map assets all) restore_set.

(** The request the last loop sends for a duplicate set. *)
Definition restore_plan (dup_set : list Asset) : list Request :=
  if all_archived dup_set then [PutAssets (map id dup_set) timeline] else [].

(** A duplicate set after the last loop. *)
Definition restored (dup_set : list Asset) : list Asset :=
  if all_archived dup_set then map (with_visibility timeline) dup_set else dup_set.


(** ** [oneoff.py]: folders *)

(** [s[n:]]. *)
Fixpoint drop (n : nat) (s : string) : string :=
  match n, s with
  | O, _ => s
  | S _, EmptyString => EmptyString
  | S k, String _ rest => drop k rest
  end.

(** [subs.add(x)] on a set kept as a list of distinct strings. *)
Definition set_add (x : string) (subs : list string) : list string :=
  if existsb (String.eqb x) subs then subs else subs ++ [x].

(** [subdirs], given the folders that [self.folders] holds. *)
Definition subdirs (folders : list string) (path : string) : list string :=
  let path := fix_path path in
  fold_left
    (fun subs folder =>
       if PyStr.startswith folder path
       then set_add (hd EmptyString (Py.split slash (drop (String.length path) folder))) subs
       else subs)
    folders [].

(** The body of the loop of [subdirs]. *)
Definition subdirs_step (path : string) (subs : list string) (folder : string)
  : list string :=
  if PyStr.startswith folder path
  then set_add (hd EmptyString (Py.split slash (drop (String.length path) folder))) subs
  else subs.

(** * Properties *)

(** ** Lists and maxima *)

Lemma fold_max_ge_init (xs : list Z) (x : Z) : (x <= fold_left Z.max xs x)%Z.
Proof.
  revert x; induction xs as [|y ys IH]; intro x; simpl; [lia|].
  specialize (IH (Z.max x y)); lia.
Qed.

Lemma fold_max_ge (xs : list Z) (x y : Z) :
  In y xs -> (y <= fold_left Z.max xs x)%Z.
Proof.
  revert x; induction xs as [|z zs IH]; intros x Hin; simpl in *; [contradiction|].
  destruct Hin as [->|Hin].
  - pose proof (fold_max_ge_init zs (Z.max x y)); lia.
  - now apply IH.
Qed.

Lemma fold_max_in (xs : list Z) (x : Z) : In (fold_left Z.max xs x) (x :: xs).
Proof.
  revert x; induction xs as [|y ys IH]; intro x; simpl; [now left|].
  destruct (IH (Z.max x y)) as [H|H].
  - destruct (Z.max_spec x y) as [[_ E]|[_ E]]; rewrite E in *; auto.
  - auto.
Qed.

Lemma py_max_in (l : list Z) (m : Z) : Py.max l = Some m -> In m l.
Proof.
  destruct l as [|x xs]; simpl; [discriminate|].
  intro H; injection H as <-. apply fold_max_in.
Qed.


Lemma find_hd_filter {A : Type} (p : A -> bool) (l : list A) :
  find p l = hd_error (filter p l).
Proof.
  induction l as [|x xs IH]; simpl; [reflexivity|].
  destruct (p x); simpl; auto.
Qed.

Lemma add_at_length (idx : nat) (k : Z) (l : list Z) :
  length (Py.add_at idx k l) = length l.
Proof.
  revert idx; induction l as [|x xs IH]; intros [|i]; simpl; auto.
Qed.

Lemma award_length (k : Z) (idxs : list nat) (scores : list Z) :
  length (award k idxs scores) = length scores.
Proof.
  unfold award; revert scores; induction idxs as [|i rest IH]; intro scores; simpl;
    [reflexivity|].
  now rewrite IH, add_at_length.
Qed.

Lemma scores_of_length (l : list Asset) : length (scores_of l) = length l.
Proof.
  unfold scores_of. now rewrite !award_length, repeat_length.
Qed.

Lemma scores_of_max (l : list Asset) :
  l <> [] -> exists m, Py.max (scores_of l) = Some m.
Proof.
  intro Hne. pose proof (scores_of_length l) as Hlen.
  destruct (scores_of l) as [|s ss]; simpl.
  - destruct l; [contradiction|discriminate].
  - eauto.
Qed.

Lemma max_scorers_incl (l : list Asset) (scores : list Z) (m : Z) (a : Asset) :
  In a (max_scorers_of l scores m) -> In a l.
Proof.
  unfold max_scorers_of. intro H.
  apply in_map_iff in H as [[a' s] [<- H]].
  apply filter_In in H as [H _]. now apply in_combine_l in H.
Qed.

Lemma nth_error_combine {A B : Type} (l : list A) (l' : list B) (n : nat) (a : A) (b : B) :
  nth_error l n = Some a -> nth_error l' n = Some b -> In (a, b) (combine l l').
Proof.
  revert l l'; induction n as [|n IH]; intros [|x xs] [|y ys] Ha Hb; simpl in *;
    try discriminate.
  - left; congruence.
  - right; now apply IH.
Qed.

Lemma max_scorers_nonempty (l : list Asset) (m : Z) :
  Py.max (scores_of l) = Some m -> max_scorers_of l (scores_of l) m <> [].
Proof.
  intros Hmax Hnil. apply py_max_in in Hmax.
  apply In_nth_error in Hmax as [n Hn].
  assert (Hlt : n < length l).
  { rewrite <- scores_of_length. apply nth_error_Some. congruence. }
  destruct (nth_error l n) as [a|] eqn:Ha; [|apply nth_error_None in Ha; lia].
  pose proof (nth_error_combine _ _ _ _ _ Ha Hn) as Hin.
  unfold max_scorers_of in Hnil.
  assert (Hf : In (a, m) (filter (fun p => (snd p =? m)%Z) (combine l (scores_of l)))).
  { apply filter_In; split; [assumption|]. simpl. apply Z.eqb_refl. }
  apply (in_map fst) in Hf. rewrite Hnil in Hf. contradiction.
Qed.

(** ** The first loop of [best_copy] *)

Lemma scan_pair (l : list Asset) :
  scan l = (track_all asset_file_size l, track_all asset_dims l).
Proof.
  unfold scan, track_all.
  generalize (Py.enumerate l) as e. generalize (0%Z, @nil nat) at 1 3 as s1.
  generalize (0%Z, @nil nat) as s2.
  intros s2 s1 e; revert s1 s2; induction e as [|ia e IH]; intros s1 s2; simpl;
    [reflexivity|].
  apply IH.
Qed.

Lemma combine_snoc {A B : Type} (l : list A) (l' : list B) (a : A) (b : B) :
  length l = length l' -> combine (l ++ [a]) (l' ++ [b]) = combine l l' ++ [(a, b)].
Proof.
  revert l'; induction l as [|x xs IH]; intros [|y ys] Hlen; simpl in *;
    try discriminate; [reflexivity|].
  f_equal. apply IH. now injection Hlen.
Qed.

Lemma filter_none {A : Type} (p : A -> bool) (l : list A) :
  (forall x, In x l -> p x = false) -> filter p l = [].
Proof.
  induction l as [|x xs IH]; intro H; simpl; [reflexivity|].
  rewrite (H x) by now left. apply IH. intros y Hy. apply H. now right.
Qed.

Lemma enumerate_snoc {A : Type} (l : list A) (a : A) :
  Py.enumerate (l ++ [a]) = Py.enumerate l ++ [(length l, a)].
Proof.
  unfold Py.enumerate. rewrite length_app, seq_app. simpl.
  apply combine_snoc. now rewrite length_seq.
Qed.

Lemma track_all_snoc (f : Asset -> Z) (l : list Asset) (a : Asset) :
  track_all f (l ++ [a]) = track (f a) (length l) (track_all f l).
Proof.
  unfold track_all. rewrite enumerate_snoc, fold_left_app. reflexivity.
Qed.

Lemma running_max_snoc (f : Asset -> Z) (l : list Asset) (a : Asset) :
  running_max f (l ++ [a]) = Z.max (running_max f l) (f a).
Proof.
  unfold running_max. rewrite map_app, fold_left_app. reflexivity.
Qed.

Lemma running_max_ge (f : Asset -> Z) (l : list Asset) (a : Asset) :
  In a l -> (f a <= running_max f l)%Z.
Proof.
  intro H. apply fold_max_ge. now apply in_map.
Qed.

Lemma positions_snoc (f : Asset -> Z) (m : Z) (l : list Asset) (a : Asset) :
  positions f m 0 (l ++ [a]) =
  positions f m 0 l ++ (if (f a =? m)%Z then [length l] else []).
Proof.
  unfold positions. fold (Py.enumerate (l ++ [a])). fold (Py.enumerate l).
  rewrite enumerate_snoc, filter_app, map_app. simpl.
  destruct (f a =? m)%Z; reflexivity.
Qed.

Lemma positions_below (f : Asset -> Z) (m : Z) (start : nat) (l : list Asset) :
  (forall a, In a l -> (f a < m)%Z) -> positions f m start l = [].
Proof.
  unfold positions. intro H.
  rewrite filter_none; [reflexivity|].
  intros [i a] Hin. apply in_combine_r in Hin. apply H in Hin. simpl.
  apply Z.eqb_neq. lia.
Qed.

Lemma track_all_spec (f : Asset -> Z) (l : list Asset) :
  track_all f l = (running_max f l, positions f (running_max f l) 0 l).
Proof.
  induction l as [|a l IH] using rev_ind; [reflexivity|].
  rewrite track_all_snoc, IH, running_max_snoc, positions_snoc. unfold track.
  destruct (Z.ltb_spec (running_max f l) (f a)) as [Hlt|Hge].
  - rewrite Z.max_r by lia. rewrite Z.eqb_refl.
    rewrite positions_below; [reflexivity|].
    intros b Hb. apply (running_max_ge f) in Hb. lia.
  - rewrite Z.max_l by lia.
    destruct (Z.eqb_spec (f a) (running_max f l)); [reflexivity|].
    now rewrite app_nil_r.
Qed.

(** ** The two award loops *)

Lemma positions_cons (f : Asset -> Z) (m : Z) (start : nat) (a : Asset) (l : list Asset) :
  positions f m start (a :: l) =
  (if (f a =? m)%Z then [start] else []) ++ positions f m (S start) l.
Proof.
  unfold positions. simpl. destruct (f a =? m)%Z; reflexivity.
Qed.

Lemma positions_shift (f : Asset -> Z) (m : Z) (start : nat) (l : list Asset) :
  positions f m (S start) l = map S (positions f m start l).
Proof.
  revert start; induction l as [|a l IH]; intro start; [reflexivity|].
  rewrite !positions_cons, map_app, IH. destruct (f a =? m)%Z; reflexivity.
Qed.

Lemma award_shift (k : Z) (idxs : list nat) (x : Z) (xs : list Z) :
  award k (map S idxs) (x :: xs) = x :: award k idxs xs.
Proof.
  unfold award. revert xs; induction idxs as [|i rest IH]; intro xs; simpl;
    [reflexivity|apply IH].
Qed.

Lemma award_cons (k : Z) (i : nat) (idxs : list nat) (scores : list Z) :
  award k (i :: idxs) scores = award k idxs (Py.add_at i k scores).
Proof. reflexivity. Qed.

Lemma award_positions (f : Asset -> Z) (m k : Z) (l : list Asset) (scores : list Z) :
  length scores = length l ->
  award k (positions f m 0 l) scores =
  map (fun p => if (f (fst p) =? m)%Z then (snd p + k)%Z else snd p) (combine l scores).
Proof.
  revert scores; induction l as [|a l IH]; intros [|x xs] Hlen;
    try discriminate; [reflexivity|].
  rewrite positions_cons, positions_shift.
  assert (Hlen' : length xs = length l) by (simpl in Hlen; congruence).
  change (combine (a :: l) (x :: xs)) with ((a, x) :: combine l xs).
  rewrite map_cons. cbn [fst snd].
  destruct (f a =? m)%Z.
  - change ([0] ++ map S (positions f m 0 l)) with (0 :: map S (positions f m 0 l)).
    rewrite award_cons. cbn [Py.add_at].
    now rewrite award_shift, IH.
  - change ([] ++ map S (positions f m 0 l)) with (map S (positions f m 0 l)).
    now rewrite award_shift, IH.
Qed.

Lemma combine_map_r {A B : Type} (g : A -> B) (l : list A) :
  combine l (map g l) = map (fun a => (a, g a)) l.
Proof.
  induction l as [|a l IH]; simpl; [reflexivity|now rewrite IH].
Qed.

Lemma repeat_as_map {A B : Type} (b : B) (l : list A) :
  repeat b (length l) = map (fun _ => b) l.
Proof.
  induction l as [|a l IH]; simpl; [reflexivity|now rewrite IH].
Qed.

Lemma scores_of_closed (l : list Asset) :
  scores_of l =
  map (score_against (running_max asset_file_size l) (running_max asset_dims l)) l.
Proof.
  unfold scores_of. rewrite scan_pair. simpl. rewrite !track_all_spec. simpl.
  rewrite (repeat_as_map 0%Z l).
  rewrite (award_positions asset_file_size _ 2 l (map (fun _ => 0%Z) l))
    by apply length_map.
  rewrite combine_map_r, map_map. cbn [fst snd].
  rewrite award_positions by apply length_map.
  rewrite combine_map_r, map_map. cbn [fst snd].
  apply map_ext. intro a. unfold score_against.
  destruct (asset_file_size a =? _)%Z, (asset_dims a =? _)%Z; reflexivity.
Qed.

(** ** What [best_copy] returns *)

Lemma best_copy_cases (l : list Asset) (m : Z) :
  Py.max (scores_of l) = Some m ->
  best_copy l =
  (if existsb is_timeline (max_scorers_of l (scores_of l) m)
   then find is_timeline (max_scorers_of l (scores_of l) m)
   else hd_error (max_scorers_of l (scores_of l) m)).
Proof.
  intro Hmax. pose proof (max_scorers_nonempty l m Hmax) as Hne.
  unfold best_copy. rewrite Hmax.
  destruct (existsb is_timeline (max_scorers_of l (scores_of l) m)) eqn:Hex.
  - apply existsb_exists in Hex as [a [Hin Ha]].
    destruct (find is_timeline (max_scorers_of l (scores_of l) m)) eqn:Hfind;
      [reflexivity|].
    apply (find_none _ _ Hfind) in Hin. congruence.
  - rewrite find_hd_filter. unfold max_scorers_of in *.
    destruct (filter (fun p => (snd p =? m)%Z) (combine l (scores_of l)));
      [contradiction|reflexivity].
Qed.

Lemma best_copy_max_scorer (l : list Asset) (m : Z) :
  Py.max (scores_of l) = Some m ->
  exists keeper, best_copy l = Some keeper /\ In keeper (max_scorers_of l (scores_of l) m).
Proof.
  intro Hmax. rewrite (best_copy_cases l m Hmax).
  pose proof (max_scorers_nonempty l m Hmax) as Hne.
  destruct (existsb is_timeline _) eqn:Hex.
  - apply existsb_exists in Hex as [a [Hin Ha]].
    destruct (find is_timeline (max_scorers_of l (scores_of l) m)) eqn:Hfind.
    + exists a0. split; [reflexivity|]. now apply find_some in Hfind.
    + apply (find_none _ _ Hfind) in Hin. congruence.
  - destruct (max_scorers_of l (scores_of l) m) as [|a ms]; [contradiction|].
    exists a. split; [reflexivity|now left].
Qed.











(** ** The quality scorer *)

Lemma best_copy_some_in (l : list Asset) :
  l <> [] -> exists keeper, best_copy l = Some keeper /\ In keeper l.
Proof.
  intro Hne. destruct (scores_of_max l Hne) as [m Hmax].
  destruct (best_copy_max_scorer l m Hmax) as [keeper [Hbest Hin]].
  exists keeper. split; [assumption|]. eapply max_scorers_incl; eassumption.
Qed.



(** ** The quality scorer on payloads with [null] *)

Lemma find_map {A B : Type} (p : B -> bool) (f : A -> B) (l : list A) :
  find p (map f l) = option_map f (find (fun x => p (f x)) l).
Proof.
  induction l as [|x l IH]; simpl; [reflexivity|]. now destruct (p (f x)).
Qed.

Lemma combine_map_snd {A B C : Type} (f : B -> C) (xs : list A) (l : list B) :
  combine xs (map f l) = map (fun p => (fst p, f (snd p))) (combine xs l).
Proof.
  revert l; induction xs as [|x xs IH]; intros [|b l]; simpl; try reflexivity.
  now rewrite IH.
Qed.

Lemma combine_map_fst {A B C : Type} (f : A -> C) (l : list A) (ys : list B) :
  combine (map f l) ys = map (fun p => (f (fst p), snd p)) (combine l ys).
Proof.
  revert ys; induction l as [|a l IH]; intros [|y ys]; simpl; try reflexivity.
  now rewrite IH.
Qed.

Lemma filter_map_swap {A B : Type} (p : B -> bool) (f : A -> B) (l : list A) :
  filter p (map f l) = map f (filter (fun x => p (f x)) l).
Proof.
  induction l as [|x l IH]; simpl; [reflexivity|].
  destruct (p (f x)); simpl; now rewrite IH.
Qed.

Lemma existsb_map {A B : Type} (p : B -> bool) (f : A -> B) (l : list A) :
  existsb p (map f l) = existsb (fun x => p (f x)) l.
Proof.
  induction l as [|x l IH]; simpl; [reflexivity|]. now rewrite IH.
Qed.

(** On a payload in which no key holds [null], the scorer reads what
    [exif_get] reads. *)
Lemma exif_number_encode (a : Asset) :
  exif_number json_fileSizeInbyte (encode a) = Some (asset_file_size a)
  /\ exif_number json_exifImageWidth (encode a) = Some (exif_get exifImageWidth a)
  /\ exif_number json_exifImageHeight (encode a) = Some (exif_get exifImageHeight a).
Proof.
  unfold exif_number, encode, asset_file_size, exif_get. cbn [json_exifInfo].
  destruct (exifInfo a) as [e|]; [|repeat split].
  destruct e as [[size|] [width|] [height|]]; repeat split.
Qed.

(** With [null] under ["exifInfo"] or under one of its three keys, one of
    the three reads raises. *)
Lemma exif_number_null (a : JsonAsset) :
  reads_null a = true ->
  exif_number json_fileSizeInbyte a = None
  \/ exif_number json_exifImageWidth a = None
  \/ exif_number json_exifImageHeight a = None.
Proof.
  unfold reads_null, exif_number.
  destruct (json_exifInfo a) as [| |e]; [discriminate|now left|].
  destruct (json_fileSizeInbyte e); [|now left|];
    (destruct (json_exifImageWidth e); [|now right; left|]);
    (destruct (json_exifImageHeight e); [|now right; right|]);
    discriminate.
Qed.

Lemma scan_json_encode (l : list Asset) :
  scan_json (map encode l) = Some (scan l).
Proof.
  unfold scan_json, scan, Py.enumerate. rewrite length_map.
  generalize (seq 0 (length l)) as ns. generalize ((0%Z, @nil nat), (0%Z, @nil nat)) as acc.
  induction l as [|a l IH]; intros acc ns.
  - now destruct ns.
  - destruct ns as [|n ns]; [reflexivity|]. cbn [map combine fold_left fst snd].
    destruct (exif_number_encode a) as [-> [-> ->]]. apply IH.
Qed.

Lemma scan_json_raised {A : Type} (step : A -> nat * JsonAsset -> option A)
      (l : list (nat * JsonAsset)) :
  fold_left (fun st ia => match st with None => None | Some st => step st ia end) l None
  = None.
Proof. induction l as [|x l IH]; [reflexivity|exact IH]. Qed.

Lemma scan_json_null (l : list JsonAsset) (a : JsonAsset) :
  In a l -> reads_null a = true -> scan_json l = None.
Proof.
  intros Hin Hnull. unfold scan_json, Py.enumerate.
  generalize 0 as k. generalize (Some ((0%Z, @nil nat), (0%Z, @nil nat))) as acc.
  induction l as [|b l IH]; [contradiction|]. intros acc k.
  cbn [length seq combine fold_left fst snd]. destruct Hin as [->|Hin].
  - match goal with
    | |- fold_left ?f _ ?x = None => replace x with (@None ((Z * list nat) * (Z * list nat)))
    end.
    + apply (scan_json_raised
               (fun st ia =>
                  match exif_number json_fileSizeInbyte (snd ia) with
                  | None => None
                  | Some asset_file_size =>
                      match exif_number json_exifImageWidth (snd ia),
                            exif_number json_exifImageHeight (snd ia) with
                      | Some asset_width, Some asset_height =>
                          Some (track asset_file_size (fst ia) (fst st),
                                track (asset_width * asset_height)%Z (fst ia) (snd st))
                      | _, _ => None
                      end
                  end)).
    + destruct acc as [st|]; [|reflexivity].
      destruct (exif_number_null a Hnull) as [E|[E|E]]; rewrite E;
        [reflexivity| |];
        destruct (exif_number json_fileSizeInbyte a); try reflexivity;
        destruct (exif_number json_exifImageWidth a); reflexivity.
  - apply (IH Hin).
Qed.

(** On payloads in which no key holds [null], [best_copy_json] is
    [best_copy]. *)
Lemma best_copy_json_encode (l : list Asset) :
  best_copy_json (map encode l) = option_map encode (best_copy l).
Proof.
  unfold best_copy_json, best_copy. rewrite scan_json_encode, length_map.
  cbv zeta. change (award 8 (snd (snd (scan l)))
                          (award 2 (snd (fst (scan l))) (repeat 0%Z (length l))))
              with (scores_of l).
  destruct (Py.max (scores_of l)) as [m|]; [|reflexivity].
  unfold max_scorers_of.
  rewrite combine_map_fst, filter_map_swap, !map_map. cbn [fst snd].
  rewrite existsb_map, !find_map. cbn [fst snd].
  change (fun x : Asset * Z => json_is_timeline (encode (fst x)))
    with (fun x : Asset * Z => is_timeline (fst x)).
  assert (Hrest :
            match
              option_map (fun p : Asset * Z => (encode (fst p), snd p))
                         (find (fun x : Asset * Z => (snd x =? m)%Z) (combine l (scores_of l)))
            with
            | Some p => Some (fst p)
            | None => hd_error (map encode l)
            end =
            option_map encode
                       match find (fun p : Asset * Z => (snd p =? m)%Z) (combine l (scores_of l)) with
                       | Some p => Some (fst p)
                       | None => hd_error l
                       end).
  { destruct (find _ (combine l (scores_of l))); [reflexivity|]. now destruct l. }
  rewrite (existsb_map is_timeline fst).
  destruct (existsb _ _); [|exact Hrest].
  destruct (find (fun x : Asset * Z => is_timeline (fst x)) _); [reflexivity|].
  exact Hrest.
Qed.

Lemma encode_onto (a : JsonAsset) :
  reads_null a = false -> exists a', a = encode a'.
Proof.
  destruct a as [i path lib v dup e]. unfold reads_null. cbn [json_exifInfo].
  assert (Hkey : forall m : member Z, holds_null m = false -> exists o, m = encode_key o).
  { intros [| |z] H; [now exists None|discriminate H|now exists (Some z)]. }
  destruct e as [| |[size width height]].
  - intros _. now exists (mkAsset i path lib v dup None).
  - discriminate.
  - cbn [json_fileSizeInbyte json_exifImageWidth json_exifImageHeight]. intro H.
    apply orb_false_iff in H as [H Hh]. apply orb_false_iff in H as [Hs Hw].
    destruct (Hkey _ Hs) as [s ->], (Hkey _ Hw) as [w ->], (Hkey _ Hh) as [h ->].
    now exists (mkAsset i path lib v dup (Some (mkExif s w h))).
Qed.

Lemma encode_all_onto (l : list JsonAsset) :
  (forall a, In a l -> reads_null a = false) -> exists l', l = map encode l'.
Proof.
  induction l as [|a l IH]; intro H; [now exists []|].
  destruct (encode_onto a (H a (or_introl eq_refl))) as [a' ->].
  destruct IH as [l' ->]; [intros b Hb; apply H; now right|].
  now exists (a' :: l').
Qed.

(** C7, on the code as it is.  A candidate whose payload lacks the two
    dimension keys is scored with 0 for them and returned; the same
    candidate with [null] under those keys, or with [null] under
    ["exifInfo"], makes [best_copy] raise, alone and also next to a
    candidate that has all three numbers.  In general [best_copy] raises
    on every candidate sequence one member of which has [null] under
    ["exifInfo"] or under one of the three keys, and it returns a member of
    the sequence on every non-empty sequence without such a member. *)
Theorem best_copy_raises_on_null :
  best_copy_json [clip_without_dimensions] = Some clip_without_dimensions
  /\ best_copy_json [clip_null_dimensions] = None
  /\ best_copy_json [clip_null_exif] = None
  /\ best_copy_json [encode (wedding_large timeline); clip_null_dimensions] = None
  /\ (forall candidates a,
        In a candidates -> reads_null a = true -> best_copy_json candidates = None)
  /\ (forall candidates,
        candidates <> [] ->
        (forall a, In a candidates -> reads_null a = false) ->
        exists keeper, best_copy_json candidates = Some keeper /\ In keeper candidates).
Proof.
  split; [reflexivity|]. split; [reflexivity|]. split; [reflexivity|].
  split; [reflexivity|]. split.
  - intros candidates a Hin Hnull. unfold best_copy_json.
    now rewrite (scan_json_null candidates a Hin Hnull).
  - intros candidates Hne Hfree.
    destruct (encode_all_onto candidates Hfree) as [l ->].
    rewrite best_copy_json_encode.
    destruct (best_copy_some_in l) as [keeper [-> Hin]].
    + intros ->. now apply Hne.
    + exists (encode keeper). split; [reflexivity|]. now apply in_map.
Qed.

Lemma find_same {A : Type} (p q : A -> bool) (l : list A) :
  (forall x, p x = q x) -> find p l = find q l.
Proof.
  intro H. induction l as [|x l IH]; simpl; [reflexivity|]. now rewrite H, IH.
Qed.

Lemma member_eqb_encode_key (x y : option Z) :
  member_eqb Z.eqb (encode_key x) (encode_key y) = option_eqb Z.eqb x y.
Proof. now destruct x, y. Qed.

Lemma JsonAsset_eqb_encode (a b : Asset) :
  JsonAsset_eqb (encode a) (encode b) = Asset_eqb a b.
Proof.
  unfold JsonAsset_eqb, Asset_eqb, encode.
  cbn [json_id json_originalPath json_libraryId json_visibility json_duplicateId
       json_exifInfo].
  f_equal. destruct (exifInfo a) as [e|], (exifInfo b) as [e'|]; try reflexivity.
  unfold member_eqb, option_eqb, JsonExifInfo_eqb, ExifInfo_eqb, encode_exif.
  cbn [json_fileSizeInbyte json_exifImageWidth json_exifImageHeight].
  now rewrite !member_eqb_encode_key.
Qed.

(** On a duplicate set in which no key holds [null], the body of the loop
    is [dedup_set]. *)
Lemma dedup_set_json_encode (priority_list : list string) (dup_set : list Asset)
      (st : ImmichApi.t) :
  dedup_set_json priority_list (map encode dup_set) st = dedup_set priority_list dup_set st.
Proof.
  unfold dedup_set_json, dedup_set, blessed_prefix_of, has_prefix.
  rewrite (find_same (fun prefix => existsb (json_in_prefix prefix) (map encode dup_set))
                    (fun prefix => existsb (fun ass => String.eqb (pfx (originalPath ass)) prefix)
                                           dup_set))
    by (intro prefix; apply existsb_map).
  destruct (find _ priority_list) as [b|]; [|reflexivity].
  destruct (negb (Py.truthy_str b)); [reflexivity|]. cbv zeta.
  unfold cross_location, blessed_copies_of, all_but.
  rewrite !filter_map_swap, !map_map, length_map.
  change (fun x => json_id (encode x)) with id.
  change (fun x => json_is_timeline (encode x) && negb (json_in_prefix b (encode x)))
    with (fun ass => is_timeline ass && negb (in_prefix b ass)).
  change (fun x => json_in_prefix b (encode x)) with (in_prefix b).
  unfold bind.
  match goal with
  | |- (let (o, st') := ?first in _) = _ => destruct first as [[u|] st1]; [|reflexivity]
  end.
  destruct (Nat.ltb 1 (length (filter (in_prefix b) dup_set))); [|reflexivity].
  rewrite best_copy_json_encode.
  destruct (best_copy (filter (in_prefix b) dup_set)) as [keeper|]; [|reflexivity].
  cbn [option_map]. rewrite filter_map_swap, map_map.
  change (fun x => json_id (encode x)) with id.
  rewrite (filter_ext (fun x => negb (JsonAsset_eqb (encode x) (encode keeper)))
                      (fun ass => negb (Asset_eqb ass keeper)))
    by (intro x; now rewrite JsonAsset_eqb_encode).
  reflexivity.
Qed.

(** With [null] for the dimensions of one of two blessed copies, the body
    of the loop raises, and the batch that archives the visible copy
    elsewhere has been sent by then; with the keys absent the set is
    resolved. *)
Example dedup_set_json_raises :
  fst (dedup_set_json path_prefix_priority_list still_and_clip
                      (init (catalog_of pair_and_outsider))) = None
  /\ sent (snd (dedup_set_json path_prefix_priority_list still_and_clip
                               (init (catalog_of pair_and_outsider))))
     = [PutAssets ["C"] "archive"]
  /\ fst (dedup_set_json path_prefix_priority_list
                         [encode (wedding_large timeline); clip_without_dimensions]
                         (init (catalog_of pair_and_outsider))) = Some tt.
Proof. repeat split; reflexivity. Qed.

(** ** Running [dedup] *)

Lemma fold_issue_app (st : ImmichApi.t) (r1 r2 : list Request) :
  fold_left issue (r1 ++ r2) st = fold_left issue r2 (fold_left issue r1 st).
Proof. apply fold_left_app. Qed.

Lemma updateAssets_issue (ids : list string) (v : string) (st : ImmichApi.t) :
  updateAssets ids v st = (Some tt, issue st (PutAssets ids v)).
Proof. reflexivity. Qed.

Lemma dedup_set_run (priority_list : list string) (dup_set : list Asset) (st : ImmichApi.t) :
  dedup_set priority_list dup_set st =
  (Some tt, fold_left issue (plan priority_list dup_set) st).
Proof.
  unfold dedup_set, plan.
  destruct (blessed_prefix_of priority_list dup_set) as [b|]; [|reflexivity].
  destruct (negb (Py.truthy_str b)); [reflexivity|].
  rewrite fold_issue_app. unfold bind, cross_location_batch.
  set (st1 := fold_left issue _ st).
  assert (E : (if Py.truthy_list (cross_location b dup_set)
               then updateAssets (cross_location b dup_set) archive
               else ret tt) st = (Some tt, st1)).
  { subst st1. destruct (Py.truthy_list (cross_location b dup_set)); reflexivity. }
  rewrite E.
  destruct (Nat.ltb 1 (length (blessed_copies_of b dup_set))) eqn:Hlen; [|reflexivity].
  destruct (best_copy_some_in (blessed_copies_of b dup_set)) as [keeper [Hk _]].
  { intro Hnil. rewrite Hnil in Hlen. discriminate. }
  rewrite Hk. unfold keeper_batches.
  destruct (Py.truthy_list (all_but keeper dup_set)); reflexivity.
Qed.

Lemma for_each_dedup_set (priority_list : list string) (sets : list (list Asset))
      (st : ImmichApi.t) :
  for_each sets (dedup_set priority_list) st =
  (Some tt, fold_left issue (flat_map (plan priority_list) sets) st).
Proof.
  revert st; induction sets as [|ds sets IH]; intro st; simpl; [reflexivity|].
  unfold bind. rewrite dedup_set_run, IH, fold_issue_app. reflexivity.
Qed.

Lemma dups_fresh (srv : Server) :
  dups (init srv) = (Some (duplicates srv), fetched srv).
Proof.
  unfold dups, bind, fill_dup_cache, init, fetched. simpl.
  reflexivity.
Qed.

Lemma dedup_run (priority_list : list string) (srv : Server) :
  dedup priority_list (init srv) =
  (Some PyNone,
   fold_left issue (flat_map (plan priority_list) (map assets (duplicates srv)))
             (fetched srv)).
Proof.
  unfold dedup, bind. rewrite dups_fresh, for_each_dedup_set. reflexivity.
Qed.

Lemma sent_fold_issue (requests : list Request) (st : ImmichApi.t) :
  sent (fold_left issue requests st) = sent st ++ requests.
Proof.
  revert st; induction requests as [|r rs IH]; intro st; simpl.
  - now rewrite app_nil_r.
  - rewrite IH. simpl. now rewrite <- app_assoc.
Qed.

Lemma duplicates_fold_issue (requests : list Request) (st : ImmichApi.t) :
  duplicates (server (fold_left issue requests st)) =
  map (fun d => mkDupSet (ds_duplicateId d) (map (apply_all requests) (assets d)))
      (duplicates (server st)).
Proof.
  revert st; induction requests as [|r rs IH]; intro st; simpl.
  - rewrite <- (map_id (duplicates (server st))) at 1. apply map_ext.
    intros [i l]. simpl. now rewrite map_id.
  - rewrite IH. destruct r; simpl; try reflexivity.
    rewrite map_map. apply map_ext. intros [i l]. simpl. now rewrite map_map.
Qed.

(** ** Equality of assets and distinct ids *)

Lemma option_eqb_eq {A : Type} (eqb : A -> A -> bool) (x y : option A) :
  (forall a b, eqb a b = true <-> a = b) -> option_eqb eqb x y = true <-> x = y.
Proof.
  intro H. destruct x as [a|], y as [b|]; simpl; try (split; congruence).
  rewrite H. split; congruence.
Qed.

Lemma ExifInfo_eqb_eq (x y : ExifInfo) : ExifInfo_eqb x y = true <-> x = y.
Proof.
  unfold ExifInfo_eqb. rewrite !andb_true_iff, !(option_eqb_eq Z.eqb) by apply Z.eqb_eq.
  destruct x, y; simpl. split; [intros [[-> ->] ->]; reflexivity|].
  intro H; injection H as -> -> ->. auto.
Qed.

Lemma Asset_eqb_eq (a b : Asset) : Asset_eqb a b = true <-> a = b.
Proof.
  unfold Asset_eqb.
  rewrite !andb_true_iff, !String.eqb_eq, !(option_eqb_eq String.eqb) by apply String.eqb_eq.
  rewrite (option_eqb_eq ExifInfo_eqb) by apply ExifInfo_eqb_eq.
  destruct a, b; simpl. split.
  - intros [[[[[-> ->] ->] ->] ->] ->]. reflexivity.
  - intro H; injection H as -> -> -> -> -> ->. repeat split.
Qed.

Lemma Asset_eqb_refl (a : Asset) : Asset_eqb a a = true.
Proof. now apply Asset_eqb_eq. Qed.

Lemma Asset_eqb_neq (a b : Asset) : Asset_eqb a b = false <-> a <> b.
Proof.
  rewrite <- Asset_eqb_eq. destruct (Asset_eqb a b); split; congruence.
Qed.

Lemma NoDup_map_inj {A B : Type} (f : A -> B) (l : list A) (x y : A) :
  NoDup (map f l) -> In x l -> In y l -> f x = f y -> x = y.
Proof.
  induction l as [|z l IH]; simpl; [contradiction|].
  intros Hnd Hx Hy E. inversion Hnd as [|? ? Hnotin Hnd']; subst.
  destruct Hx as [->|Hx], Hy as [->|Hy]; auto.
  - exfalso. apply Hnotin. rewrite E. now apply in_map.
  - exfalso. apply Hnotin. rewrite <- E. now apply in_map.
Qed.

Lemma NoDup_app_disjoint {A : Type} (l1 l2 : list A) (x : A) :
  NoDup (l1 ++ l2) -> In x l1 -> In x l2 -> False.
Proof.
  induction l1 as [|y l1 IH]; simpl; [contradiction|].
  intros Hnd [->|Hx] Hx2; inversion Hnd as [|? ? Hnotin Hnd']; subst.
  - apply Hnotin. apply in_or_app. now right.
  - now apply IH.
Qed.

Lemma id_eqb_in_set (dup_set : list Asset) (a b : Asset) :
  NoDup (map id dup_set) -> In a dup_set -> In b dup_set ->
  String.eqb (id a) (id b) = Asset_eqb a b.
Proof.
  intros Hnd Ha Hb. destruct (String.eqb_spec (id a) (id b)) as [E|N].
  - symmetry. apply Asset_eqb_eq. eapply NoDup_map_inj; eassumption.
  - symmetry. apply Asset_eqb_neq. congruence.
Qed.

(** ** One request on one asset *)

Lemma with_visibility_id (v : string) (a : Asset) : id (with_visibility v a) = id a.
Proof. reflexivity. Qed.

Lemma with_visibility_twice (v w : string) (a : Asset) :
  with_visibility v (with_visibility w a) = with_visibility v a.
Proof. reflexivity. Qed.

Lemma with_visibility_same (a : Asset) : with_visibility (visibility a) a = a.
Proof. now destruct a. Qed.

Lemma set_visibility_id (ids : list string) (v : string) (a : Asset) :
  id (set_visibility ids v a) = id a.
Proof. unfold set_visibility. now destruct (existsb _ ids). Qed.

Lemma apply_all_id (requests : list Request) (a : Asset) :
  id (apply_all requests a) = id a.
Proof.
  unfold apply_all. revert a; induction requests as [|r rs IH]; intro a; simpl;
    [reflexivity|].
  rewrite IH. destruct r; simpl; auto using set_visibility_id.
Qed.

Lemma apply_all_app (r1 r2 : list Request) (a : Asset) :
  apply_all (r1 ++ r2) a = apply_all r2 (apply_all r1 a).
Proof. apply fold_left_app. Qed.

Lemma set_visibility_filter (p : Asset -> bool) (dup_set : list Asset) (v : string)
      (a a' : Asset) :
  NoDup (map id dup_set) -> In a dup_set -> id a' = id a ->
  set_visibility (map id (filter p dup_set)) v a' =
  if p a then with_visibility v a' else a'.
Proof.
  intros Hnd Ha Hid. unfold set_visibility. rewrite Hid.
  replace (existsb (String.eqb (id a)) (map id (filter p dup_set))) with (p a);
    [reflexivity|].
  destruct (existsb _ (map id (filter p dup_set))) eqn:Hex.
  - apply existsb_exists in Hex as [x [Hx E]].
    apply in_map_iff in Hx as [b [<- Hb]]. apply filter_In in Hb as [Hb Hp].
    apply String.eqb_eq in E.
    now rewrite (NoDup_map_inj id dup_set a b Hnd Ha Hb E).
  - destruct (p a) eqn:Hp; [|reflexivity].
    assert (Hin : In (id a) (map id (filter p dup_set))).
    { apply in_map. apply filter_In. now split. }
    rewrite <- Hex. symmetry. apply existsb_exists.
    exists (id a). split; [assumption|apply String.eqb_refl].
Qed.

(** ** The requests of one duplicate set, applied to its members *)

Lemma truthy_list_false {A : Type} (l : list A) : Py.truthy_list l = false -> l = [].
Proof. destruct l; [reflexivity|discriminate]. Qed.

Lemma truthy_list_true {A : Type} (l : list A) : l <> [] -> Py.truthy_list l = true.
Proof. destruct l; [contradiction|reflexivity]. Qed.


Lemma keeper_batches_apply (keeper : Asset) (dup_set : list Asset) (a a' : Asset) :
  NoDup (map id dup_set) -> In keeper dup_set -> In a dup_set -> id a' = id a ->
  all_but keeper dup_set <> [] ->
  apply_all (keeper_batches keeper dup_set) a' =
  if Asset_eqb a keeper then with_visibility timeline a' else with_visibility archive a'.
Proof.
  intros Hnd Hk Ha Hid Hne. unfold keeper_batches.
  rewrite (truthy_list_true _ Hne). unfold apply_all. simpl. unfold all_but.
  rewrite (set_visibility_filter _ dup_set archive a a' Hnd Ha Hid).
  unfold set_visibility at 1. simpl.
  replace (id (if negb (Asset_eqb a keeper) then with_visibility archive a' else a'))
    with (id a) by (destruct (negb _); simpl; congruence).
  rewrite orb_false_r, (id_eqb_in_set dup_set a keeper Hnd Ha Hk).
  destruct (Asset_eqb a keeper); reflexivity.
Qed.

Lemma blessed_copies_in (b : string) (dup_set : list Asset) (a : Asset) :
  In a (blessed_copies_of b dup_set) <-> In a dup_set /\ pfx (originalPath a) = b.
Proof.
  unfold blessed_copies_of, in_prefix. rewrite filter_In, String.eqb_eq. reflexivity.
Qed.

Lemma all_but_nonempty (b : string) (dup_set : list Asset) (keeper : Asset) :
  NoDup (map id dup_set) ->
  1 < length (blessed_copies_of b dup_set) ->
  all_but keeper dup_set <> [].
Proof.
  intros Hnd Hlen.
  assert (Hbc : NoDup (blessed_copies_of b dup_set)).
  { apply NoDup_filter. eapply NoDup_map_inv; eassumption. }
  destruct (blessed_copies_of b dup_set) as [|x [|y rest]] eqn:E; simpl in Hlen; try lia.
  assert (Hx : In x dup_set) by (apply (blessed_copies_in b); rewrite E; now left).
  assert (Hy : In y dup_set) by (apply (blessed_copies_in b); rewrite E; right; now left).
  assert (Hxy : x <> y).
  { inversion Hbc as [|? ? Hnotin _]; subst. intros ->. apply Hnotin. now left. }
  assert (Hex : exists z, In z dup_set /\ z <> keeper).
  { destruct (Asset_eqb x keeper) eqn:Exk.
    - apply Asset_eqb_eq in Exk. exists y. split; [assumption|congruence].
    - apply Asset_eqb_neq in Exk. now exists x. }
  destruct Hex as [z [Hz Hzk]]. unfold all_but. intro Hnil.
  assert (Hin : In (id z) (map id (filter (fun ass => negb (Asset_eqb ass keeper)) dup_set))).
  { apply in_map. apply filter_In. split; [assumption|].
    apply negb_true_iff. now apply Asset_eqb_neq. }
  rewrite Hnil in Hin. contradiction.
Qed.


(** ** The requests of the other duplicate sets *)

Lemma set_visibility_foreign (ids : list string) (v : string) (a : Asset) :
  ~ In (id a) ids -> set_visibility ids v a = a.
Proof.
  intro H. unfold set_visibility.
  destruct (existsb (String.eqb (id a)) ids) eqn:Hex; [|reflexivity].
  apply existsb_exists in Hex as [x [Hx E]]. apply String.eqb_eq in E. now subst.
Qed.

Lemma apply_all_foreign (requests : list Request) (a : Asset) :
  (forall ids v, In (PutAssets ids v) requests -> ~ In (id a) ids) ->
  apply_all requests a = a.
Proof.
  unfold apply_all. induction requests as [|r rs IH]; intro H; simpl; [reflexivity|].
  assert (E : apply_request r a = a).
  { destruct r as [| | |ids v]; simpl; try reflexivity.
    apply set_visibility_foreign. apply (H ids v). now left. }
  rewrite E. apply IH. intros ids v Hin. apply (H ids v). now right.
Qed.

Lemma plan_requests (priority_list : list string) (dup_set : list Asset) (r : Request) :
  In r (plan priority_list dup_set) ->
  exists ids v, r = PutAssets ids v /\ incl ids (map id dup_set).
Proof.
  assert (Hsub : forall p, incl (map id (filter p dup_set)) (map id dup_set)).
  { intros p x Hx. apply in_map_iff in Hx as [a [<- Ha]].
    apply filter_In in Ha as [Ha _]. now apply in_map. }
  unfold plan.
  destruct (blessed_prefix_of priority_list dup_set) as [b|]; [|contradiction].
  destruct (negb (Py.truthy_str b)); [contradiction|].
  intro Hin. apply in_app_or in Hin as [Hin|Hin].
  - unfold cross_location_batch in Hin.
    destruct (Py.truthy_list (cross_location b dup_set)); [|contradiction].
    destruct Hin as [<-|[]]. eexists _, _. split; [reflexivity|apply Hsub].
  - destruct (Nat.ltb 1 (length (blessed_copies_of b dup_set))) eqn:Hlen;
      [|contradiction].
    destruct (best_copy (blessed_copies_of b dup_set)) as [keeper|] eqn:Hk;
      [|contradiction].
    destruct (best_copy_some_in (blessed_copies_of b dup_set)) as [k' [Hk' Hkin]].
    { intro Hnil. rewrite Hnil in Hlen. discriminate. }
    rewrite Hk in Hk'. injection Hk' as <-.
    apply blessed_copies_in in Hkin as [Hkin _].
    unfold keeper_batches in Hin.
    destruct (Py.truthy_list (all_but keeper dup_set)); [|contradiction].
    destruct Hin as [<-|[<-|[]]]; eexists _, _; (split; [reflexivity|]).
    + apply Hsub.
    + intros x [<-|[]]. now apply in_map.
Qed.

Lemma plans_foreign (priority_list : list string) (sets : list DupSet) (a : Asset) :
  ~ In (id a) (all_ids sets) ->
  apply_all (flat_map (plan priority_list) (map assets sets)) a = a.
Proof.
  intro Hnot. apply apply_all_foreign. intros ids v Hin Hid.
  apply in_flat_map in Hin as [ds [Hds Hin]].
  apply in_map_iff in Hds as [d [<- Hd]].
  apply plan_requests in Hin as [ids' [v' [E Hincl]]]. injection E as <- <-.
  apply Hnot. unfold all_ids. apply Hincl in Hid.
  apply in_map_iff in Hid as [x [Ex Hx]]. rewrite <- Ex. apply in_map.
  apply in_flat_map. now exists d.
Qed.

Lemma plans_on_member (priority_list : list string) (sets : list DupSet)
      (d : DupSet) (a : Asset) :
  NoDup (all_ids sets) -> In d sets -> In a (assets d) ->
  apply_all (flat_map (plan priority_list) (map assets sets)) a =
  apply_all (plan priority_list (assets d)) a.
Proof.
  intros Hnd Hd Ha. apply in_split in Hd as [before [after ->]].
  unfold all_ids in Hnd. rewrite flat_map_app in Hnd. simpl in Hnd.
  rewrite !map_app in Hnd.
  rewrite map_app, flat_map_app. simpl. rewrite !apply_all_app.
  assert (Hin : In (id a) (map id (assets d))) by now apply in_map.
  rewrite (plans_foreign priority_list before a).
  - apply plans_foreign. unfold all_ids. intro Hafter.
    rewrite apply_all_id in Hafter.
    apply NoDup_app_remove_l in Hnd.
    eapply NoDup_app_disjoint; eassumption.
  - unfold all_ids. intro Hbefore.
    eapply NoDup_app_disjoint; [exact Hnd|exact Hbefore|].
    apply in_or_app. now left.
Qed.

Lemma NoDup_all_ids_set (sets : list DupSet) (d : DupSet) :
  NoDup (all_ids sets) -> In d sets -> NoDup (map id (assets d)).
Proof.
  intros Hnd Hd. apply in_split in Hd as [before [after ->]].
  unfold all_ids in Hnd. rewrite flat_map_app in Hnd. simpl in Hnd.
  rewrite !map_app in Hnd.
  apply NoDup_app_remove_l in Hnd. now apply NoDup_app_remove_r in Hnd.
Qed.


(** ** [best_copy] after the keeper alone is on the timeline *)

Lemma scores_of_map (h : Asset -> Asset) (l : list Asset) :
  (forall a, asset_file_size (h a) = asset_file_size a) ->
  (forall a, asset_dims (h a) = asset_dims a) ->
  scores_of (map h l) = scores_of l.
Proof.
  intros Hs Hd. rewrite !scores_of_closed. unfold running_max.
  rewrite !map_map.
  rewrite (map_ext (fun x => asset_file_size (h x)) asset_file_size Hs).
  rewrite (map_ext (fun x => asset_dims (h x)) asset_dims Hd).
  apply map_ext. intro a. unfold score_against. now rewrite Hs, Hd.
Qed.

Lemma max_scorers_of_map (h : Asset -> Asset) (l : list Asset) (sc : list Z) (m : Z) :
  max_scorers_of (map h l) sc m = map h (max_scorers_of l sc m).
Proof.
  unfold max_scorers_of. revert sc; induction l as [|a l IH]; intros [|s sc]; simpl;
    try reflexivity.
  destruct (s =? m)%Z; simpl; now rewrite IH.
Qed.

Lemma keep_only_timeline (keeper a : Asset) :
  is_timeline (keep_only keeper a) = Asset_eqb a keeper.
Proof. unfold keep_only. now destruct (Asset_eqb a keeper). Qed.

Lemma find_keep_only (keeper : Asset) (l : list Asset) :
  In keeper l -> find is_timeline (map (keep_only keeper) l) = Some (keep_only keeper keeper).
Proof.
  induction l as [|x l IH]; simpl; [contradiction|].
  intro Hin. rewrite keep_only_timeline.
  destruct (Asset_eqb x keeper) eqn:E.
  - apply Asset_eqb_eq in E. now subst.
  - apply Asset_eqb_neq in E. destruct Hin as [->|Hin]; [contradiction|now apply IH].
Qed.

Lemma best_copy_keep_only (l : list Asset) (keeper : Asset) :
  best_copy l = Some keeper ->
  best_copy (map (keep_only keeper) l) = Some (keep_only keeper keeper).
Proof.
  intro Hk.
  assert (Hne : l <> []) by (intros ->; discriminate).
  destruct (scores_of_max l Hne) as [m Hmax].
  destruct (best_copy_max_scorer l m Hmax) as [k' [Hk' Hin]].
  rewrite Hk in Hk'. injection Hk' as <-.
  assert (Hsc : scores_of (map (keep_only keeper) l) = scores_of l).
  { apply scores_of_map; intro a; unfold keep_only; now destruct (Asset_eqb a keeper). }
  rewrite (best_copy_cases _ m) by now rewrite Hsc.
  rewrite Hsc, max_scorers_of_map, (find_keep_only keeper _ Hin).
  assert (Hex : existsb is_timeline
                  (map (keep_only keeper) (max_scorers_of l (scores_of l) m)) = true).
  { apply existsb_exists. exists (keep_only keeper keeper). split.
    - now apply in_map.
    - rewrite keep_only_timeline. apply Asset_eqb_refl. }
  now rewrite Hex.
Qed.

(** ** A duplicate set after [dedup] *)


















(** ** Convergence *)




(** ** A second run *)




(** ** The second phase *)



(** ** Duplicate sets under no listed prefix *)

Lemma find_all_false {A : Type} (p : A -> bool) (l : list A) :
  (forall x, In x l -> p x = false) -> find p l = None.
Proof.
  induction l as [|x l IH]; intro H; simpl; [reflexivity|].
  rewrite (H x) by now left. apply IH. intros y Hy. apply H. now right.
Qed.

Lemma blessed_prefix_unlisted (priority_list : list string) (dup_set : list Asset) :
  (forall a, In a dup_set -> ~ In (pfx (originalPath a)) priority_list) ->
  blessed_prefix_of priority_list dup_set = None.
Proof.
  intro H. unfold blessed_prefix_of. apply find_all_false. intros p Hp.
  unfold has_prefix. destruct (existsb _ dup_set) eqn:Hex; [|reflexivity].
  apply existsb_exists in Hex as [a [Ha E]]. apply String.eqb_eq in E.
  exfalso. apply (H a Ha). now rewrite E.
Qed.

(** C9, as amended.  For a duplicate set none of whose members has its
    prefix in the priority list, the body of the loop of [dedup] returns at
    once: it sends no request and leaves the client and the service as they
    are; the loop goes on with the sets that follow, so that the run is the
    run without that set.  [dedup] itself hands back [None]: it keeps no
    count of skipped sets. *)
Theorem dedup_skips_unlisted (priority_list : list string) (dup_set : list Asset) :
  (forall a, In a dup_set -> ~ In (pfx (originalPath a)) priority_list) ->
  (forall st, dedup_set priority_list dup_set st = (Some tt, st))
  /\ (forall before after st,
        for_each (before ++ dup_set :: after) (dedup_set priority_list) st =
        for_each (before ++ after) (dedup_set priority_list) st)
  /\ (forall srv, fst (dedup priority_list (init srv)) = Some PyNone).
Proof.
  intro H. apply blessed_prefix_unlisted in H.
  assert (Hplan : plan priority_list dup_set = []) by (unfold plan; now rewrite H).
  split; [|split].
  - intro st. now rewrite dedup_set_run, Hplan.
  - intros before after st. rewrite !for_each_dedup_set, !flat_map_app. simpl.
    now rewrite Hplan.
  - intro srv. now rewrite dedup_run.
Qed.

(** ** Prefixes *)

Lemma split_cons (sep c : ascii) (rest : string) :
  Py.split sep (String c rest) =
  if Ascii.eqb c sep then EmptyString :: Py.split sep rest
  else match Py.split sep rest with
       | [] => [String c EmptyString]
       | w :: ws => String c w :: ws
       end.
Proof. reflexivity. Qed.

Lemma split_field (f rest : string) :
  no_slash f = true ->
  Py.split slash (f ++ String slash rest) = f :: Py.split slash rest.
Proof.
  induction f as [|c f IH]; intro H; cbn [append].
  - now rewrite split_cons, Ascii.eqb_refl.
  - cbn [no_slash] in H. apply andb_true_iff in H as [Hc Hf].
    apply negb_true_iff in Hc. now rewrite split_cons, Hc, (IH Hf).
Qed.

Lemma pfx_three_fields (f1 f2 f3 rest : string) :
  no_slash f1 = true -> no_slash f2 = true -> no_slash f3 = true ->
  pfx (f1 ++ "/" ++ f2 ++ "/" ++ f3 ++ "/" ++ rest) = (f1 ++ "/" ++ f2 ++ "/" ++ f3)%string.
Proof.
  intros H1 H2 H3. unfold pfx.
  change ("/" ++ f2 ++ "/" ++ f3 ++ "/" ++ rest)%string
    with (String slash (f2 ++ String slash (f3 ++ String slash rest)))%string.
  rewrite (split_field f1 _ H1), (split_field f2 _ H2), (split_field f3 _ H3).
  reflexivity.
Qed.

Lemma prefix_cons (a b : ascii) (p s : string) :
  String.prefix (String a p) (String b s) = Ascii.eqb a b && String.prefix p s.
Proof.
  change (String.prefix (String a p) (String b s))
    with (match Ascii.ascii_dec a b with
          | left _ => String.prefix p s
          | right _ => false
          end).
  destruct (Ascii.ascii_dec a b) as [->|N].
  - now rewrite Ascii.eqb_refl.
  - apply Ascii.eqb_neq in N. now rewrite N.
Qed.

Lemma split_nonempty (s : string) : Py.split slash s <> [].
Proof.
  destruct s as [|c s]; [discriminate|]. rewrite split_cons.
  destruct (Ascii.eqb c slash); [discriminate|].
  destruct (Py.split slash s); discriminate.
Qed.

Lemma join_cons (f : string) (fields : list string) :
  fields <> [] -> Py.join "/" (f :: fields) = (f ++ "/" ++ Py.join "/" fields)%string.
Proof. destruct fields; [contradiction|reflexivity]. Qed.

Lemma join_split (s : string) : Py.join "/" (Py.split slash s) = s.
Proof.
  induction s as [|c s IH]; [reflexivity|]. rewrite split_cons.
  destruct (Ascii.eqb_spec c slash) as [->|N].
  - rewrite join_cons by apply split_nonempty. now rewrite IH.
  - pose proof (split_nonempty s) as Hne.
    destruct (Py.split slash s) as [|w ws]; [contradiction|].
    destruct ws as [|w' ws].
    + simpl in *. now rewrite IH.
    + rewrite join_cons by discriminate. rewrite join_cons in IH by discriminate.
      simpl. now rewrite <- IH.
Qed.

Lemma split_fields (s : string) : Forall (fun f => no_slash f = true) (Py.split slash s).
Proof.
  induction s as [|c s IH]; [repeat constructor|]. rewrite split_cons.
  destruct (Ascii.eqb c slash) eqn:E.
  - constructor; [reflexivity|assumption].
  - destruct (Py.split slash s) as [|w ws]; [repeat constructor; simpl; now rewrite E|].
    inversion IH as [|? ? Hw Hws]; subst. constructor; [|assumption].
    simpl. now rewrite E, Hw.
Qed.

Lemma split_no_slash (f : string) : no_slash f = true -> Py.split slash f = [f].
Proof.
  induction f as [|c f IH]; [reflexivity|]. intro H. cbn [no_slash] in H.
  apply andb_true_iff in H as [Hc Hf]. apply negb_true_iff in Hc.
  now rewrite split_cons, Hc, (IH Hf).
Qed.

Lemma split_join (fields : list string) :
  fields <> [] -> Forall (fun f => no_slash f = true) fields ->
  Py.split slash (Py.join "/" fields) = fields.
Proof.
  induction fields as [|f fields IH]; [contradiction|]. intros _ H.
  inversion H as [|? ? Hf Hfs]; subst.
  destruct fields as [|g fields].
  - simpl. now apply split_no_slash.
  - rewrite join_cons by discriminate.
    change ("/" ++ Py.join "/" (g :: fields))%string
      with (String slash (Py.join "/" (g :: fields))).
    rewrite (split_field f _ Hf), IH; [reflexivity|discriminate|assumption].
Qed.

Lemma prefix_app (s t : string) : String.prefix s (s ++ t) = true.
Proof.
  induction s as [|c s IH]; [now destruct t|].
  cbn [append]. now rewrite prefix_cons, Ascii.eqb_refl, IH.
Qed.

Lemma prefix_same (s : string) : String.prefix s s = true.
Proof.
  induction s as [|c s IH]; [reflexivity|]. now rewrite prefix_cons, Ascii.eqb_refl, IH.
Qed.

Lemma prefix_join_firstn (n : nat) (fields : list string) :
  String.prefix (Py.join "/" (firstn n fields)) (Py.join "/" fields) = true.
Proof.
  revert n; induction fields as [|f fields IH]; intro n.
  - now rewrite firstn_nil.
  - destruct n as [|n]; [now destruct (Py.join "/" (f :: fields))|].
    cbn [firstn]. destruct fields as [|g fields].
    + rewrite firstn_nil. apply prefix_same.
    + rewrite (join_cons f (g :: fields)) by discriminate.
      destruct n as [|n].
      * cbn [firstn]. apply (prefix_app f).
      * rewrite join_cons by (cbn [firstn]; discriminate).
        clear -IH. specialize (IH (S n)).
        induction f as [|c f IHf]; cbn [append].
        -- now rewrite prefix_cons, Ascii.eqb_refl.
        -- now rewrite prefix_cons, Ascii.eqb_refl.
Qed.

Lemma Forall_firstn {A : Type} (P : A -> Prop) (n : nat) (l : list A) :
  Forall P l -> Forall P (firstn n l).
Proof.
  intro H. revert n; induction H; intros [|n]; simpl; constructor; auto.
Qed.

Lemma blessed_prefix_of_some (priority_list : list string) (dup_set : list Asset)
      (b : string) :
  blessed_prefix_of priority_list dup_set = Some b ->
  In b priority_list /\ exists a, In a dup_set /\ pfx (originalPath a) = b.
Proof.
  unfold blessed_prefix_of. intro H. apply find_some in H as [Hin H].
  split; [assumption|]. unfold has_prefix in H.
  apply existsb_exists in H as [a [Ha E]]. apply String.eqb_eq in E. eauto.
Qed.

Lemma cross_location_in (b : string) (dup_set : list Asset) (x : string) :
  In x (cross_location b dup_set) <->
  exists a, In a dup_set /\ id a = x /\ visibility a = timeline
            /\ pfx (originalPath a) <> b.
Proof.
  unfold cross_location, is_timeline, in_prefix. rewrite in_map_iff. split.
  - intros [a [E Ha]]. apply filter_In in Ha as [Ha C].
    apply andb_true_iff in C as [Ht Hp].
    apply String.eqb_eq in Ht. apply negb_true_iff, String.eqb_neq in Hp.
    exists a. auto.
  - intros [a [Ha [E [Ht Hp]]]]. exists a. split; [assumption|].
    apply filter_In. split; [assumption|]. apply andb_true_iff. split.
    + now apply String.eqb_eq.
    + now apply negb_true_iff, String.eqb_neq.
Qed.

Lemma blessed_prefix_of_none (priority_list : list string) (dup_set : list Asset) :
  blessed_prefix_of priority_list dup_set = None <->
  forall a, In a dup_set -> ~ In (pfx (originalPath a)) priority_list.
Proof.
  split; [|apply blessed_prefix_unlisted].
  unfold blessed_prefix_of. intros H a Ha Hin.
  apply (find_none _ _ H) in Hin. unfold has_prefix in Hin.
  assert (Hex : existsb (fun ass => String.eqb (pfx (originalPath ass)) (pfx (originalPath a)))
                        dup_set = true).
  { apply existsb_exists. exists a. split; [assumption|apply String.eqb_refl]. }
  congruence.
Qed.

Lemma pfx_split (path : string) :
  Py.split slash (pfx path) = firstn 3 (Py.split slash path).
Proof.
  unfold pfx. apply split_join.
  - pose proof (split_nonempty path). destruct (Py.split slash path); [contradiction|].
    discriminate.
  - apply Forall_firstn, split_fields.
Qed.

Lemma pfx_prefix (path : string) : String.prefix (pfx path) path = true.
Proof.
  unfold pfx. rewrite <- (join_split path) at 2. apply prefix_join_firstn.
Qed.

Lemma pfx_rooted (rest : string) :
  pfx ("/" ++ rest) = ("/" ++ leading_fields 2 rest)%string.
Proof.
  unfold pfx, leading_fields.
  change ("/" ++ rest)%string with (String slash rest).
  rewrite split_cons, Ascii.eqb_refl. cbn [firstn].
  pose proof (split_nonempty rest) as Hne.
  destruct (Py.split slash rest) as [|f fields]; [contradiction|].
  rewrite join_cons by (cbn [firstn]; discriminate). reflexivity.
Qed.

(** C8, as amended.  For every path, [pfx] returns the first three fields
    of the path between slashes, joined by slashes: the result begins the
    path, and its fields are the first three fields of the path, all of
    them when the path has fewer.  For a path that starts with a slash the
    first field is empty, so that the result is the slash and the first two
    fields of what follows it.  This prefix is the one [dedup] looks up in
    the priority list, the one it compares with the blessed prefix to
    archive the visible copies elsewhere, and the one that selects the
    blessed copies. *)
Theorem pfx_fields (path rest : string) (priority_list : list string)
        (dup_set : list Asset) (b : string) :
  pfx path = leading_fields 3 path
  /\ Py.split slash (pfx path) = firstn 3 (Py.split slash path)
  /\ String.prefix (pfx path) path = true
  /\ pfx ("/" ++ rest) = ("/" ++ leading_fields 2 rest)%string
  /\ (blessed_prefix_of priority_list dup_set = None <->
      forall a, In a dup_set -> ~ In (leading_fields 3 (originalPath a)) priority_list)
  /\ (blessed_prefix_of priority_list dup_set = Some b ->
      In b priority_list
      /\ exists a, In a dup_set /\ leading_fields 3 (originalPath a) = b)
  /\ (forall x, In x (cross_location b dup_set) <->
                exists a, In a dup_set /\ id a = x /\ visibility a = "timeline"
                          /\ leading_fields 3 (originalPath a) <> b)
  /\ (forall a, In a (blessed_copies_of b dup_set) <->
                In a dup_set /\ leading_fields 3 (originalPath a) = b).
Proof.
  split; [reflexivity|]. split; [apply pfx_split|]. split; [apply pfx_prefix|].
  split; [apply pfx_rooted|]. split; [apply blessed_prefix_of_none|].
  split; [apply blessed_prefix_of_some|].
  split; [apply cross_location_in|apply blessed_copies_in].
Qed.

(** ** The presence classifier *)

(** C10.  With a target library id that is [None] or the empty string,
    [find_assets_not_in_library] returns the empty list at once: the client
    is as before, so no library and no asset has been requested. *)
Theorem find_assets_not_in_library_falsy (targetLibraryId : option string)
        (st : ImmichApi.t) :
  truthy_id targetLibraryId = false ->
  find_assets_not_in_library targetLibraryId st = (Some [], st).
Proof.
  intro H. unfold find_assets_not_in_library. now rewrite H.
Qed.

(** C3, on the code as it is.  With [lib-target] as the target, the asset
    of [lib-one] whose duplicate is in [lib-target] is listed, and of two
    duplicates that are both in [lib-one], with none in [lib-target],
    neither is listed: the test looks for the library being enumerated
    among the siblings' libraries, not for the target. *)
Theorem find_assets_not_in_library_enumerated :
  fst (find_assets_not_in_library (Some "lib-target") (init reaches_target)) = Some [in_one]
  /\ fst (dups_of in_one (init reaches_target)) = Some [in_target]
  /\ libraryId in_target = Some "lib-target"
  /\ fst (find_assets_not_in_library (Some "lib-target") (init stays_in_one)) = Some []
  /\ fst (dups_of in_one (init stays_in_one)) = Some [also_in_one]
  /\ libraryId also_in_one <> Some "lib-target".
Proof.
  repeat split; try reflexivity. discriminate.
Qed.

(** ** The claims on concrete catalogs *)

Lemma in_by_eqb (x : string) (l : list string) :
  existsb (String.eqb x) l = true -> In x l.
Proof.
  intro H. apply existsb_exists in H as [y [Hy E]]. apply String.eqb_eq in E. now subst.
Qed.

Lemma not_in_by_eqb (x : string) (l : list string) :
  existsb (String.eqb x) l = false -> ~ In x l.
Proof.
  intros H Hin. assert (T : existsb (String.eqb x) l = true).
  { apply existsb_exists. exists x. split; [assumption|apply String.eqb_refl]. }
  congruence.
Qed.


(** The first example of the specification: the visible copy outside the
    blessed prefix is archived and the blessed copy stays. *)
Example dedup_wedding_and_misc :
  duplicates
    (server (snd (dedup path_prefix_priority_list
                        (init (catalog_of [wedding_small timeline; misc_copy timeline]))))) =
  [mkDupSet "dup-1" [wedding_small timeline; misc_copy archive]].
Proof. reflexivity. Qed.






Example dedup_second_run_requests :
  sent (snd (dedup_set path_prefix_priority_list pair_and_outsider_after
                       (init (catalog_of pair_and_outsider_after))))
  = [PutAssets ["A"; "C"] "archive"; PutAssets ["B"] "timeline"]
  /\ best_copy (blessed_copies_of wedding pair_and_outsider_after)
     = Some (wedding_large timeline).
Proof. split; reflexivity. Qed.





Example scores_of_heavy_and_sharp :
  map byte_size heavy_and_sharp = [900%Z; 500%Z]
  /\ map pixel_area heavy_and_sharp = [200%Z; 1200%Z]
  /\ map (score heavy_and_sharp) heavy_and_sharp = [2%Z; 8%Z]
  /\ scores_of heavy_and_sharp = [2%Z; 8%Z]
  /\ best_copy heavy_and_sharp = Some (sharp_copy archive).
Proof. repeat split; reflexivity. Qed.

(** The second example of the specification: the scores are 8 and 10 and
    the keeper is the second copy. *)
Example scores_of_settled_pair :
  scores_of settled_pair = [8%Z; 10%Z]
  /\ map (score settled_pair) settled_pair = [8%Z; 10%Z]
  /\ best_copy settled_pair = Some (wedding_large timeline).
Proof. repeat split; reflexivity. Qed.






(** The tie-break of the specification: of two candidates with equal
    scores, the one on the timeline is returned, also when it comes
    second; a candidate on the timeline with a lesser score is not. *)
Example best_copy_prefers_timeline :
  scores_of tied_pair = [10%Z; 10%Z]
  /\ best_copy tied_pair = Some (wedding_large timeline)
  /\ best_copy [wedding_large archive; wedding_large archive] = Some (wedding_large archive)
  /\ scores_of better_archived = [8%Z; 10%Z; 10%Z]
  /\ best_copy better_archived = Some (wedding_large archive).
Proof. repeat split; reflexivity. Qed.

(** C8, the claim as stated fails: for the path of an uploaded asset,
    which does not start with a slash, [pfx] returns three components, and
    that three-component prefix is an entry of the priority list. *)
Lemma pfx_relative_path :
  pfx upload_path = "upload/upload/d8fbf34b-0e56-43dd-87b3-b7774f6b3f3b"
  /\ first_two_components upload_path = "upload/upload"
  /\ pfx upload_path <> first_two_components upload_path
  /\ In (pfx upload_path) path_prefix_priority_list
  /\ pfx "/photos/wedding/a.jpg" = first_two_components "/photos/wedding/a.jpg".
Proof.
  split; [reflexivity|]. split; [reflexivity|]. split; [discriminate|].
  split; [apply in_by_eqb|]; reflexivity.
Qed.

(** A path with three fields only, which is an entry of the priority
    list, is its own prefix. *)
Lemma pfx_fields_witness :
  (Py.split slash "/photos/hawks.png" = [""; "photos"; "hawks.png"]
   /\ leading_fields 3 "/photos/hawks.png" = "/photos/hawks.png"
   /\ leading_fields 2 "photos/wedding/a.jpg" = "photos/wedding"
   /\ In "/photos/hawks.png" path_prefix_priority_list
   /\ blessed_prefix_of path_prefix_priority_list pair_and_outsider = Some wedding)
  /\ (pfx "/photos/hawks.png" = leading_fields 3 "/photos/hawks.png"
      /\ Py.split slash (pfx "/photos/hawks.png")
         = firstn 3 (Py.split slash "/photos/hawks.png")
      /\ String.prefix (pfx "/photos/hawks.png") "/photos/hawks.png" = true
      /\ pfx ("/" ++ "photos/wedding/a.jpg")
         = ("/" ++ leading_fields 2 "photos/wedding/a.jpg")%string
      /\ (blessed_prefix_of path_prefix_priority_list pair_and_outsider = None <->
          forall a, In a pair_and_outsider ->
                    ~ In (leading_fields 3 (originalPath a)) path_prefix_priority_list)
      /\ (blessed_prefix_of path_prefix_priority_list pair_and_outsider = Some wedding ->
          In wedding path_prefix_priority_list
          /\ exists a, In a pair_and_outsider /\ leading_fields 3 (originalPath a) = wedding)
      /\ (forall x, In x (cross_location wedding pair_and_outsider) <->
                    exists a, In a pair_and_outsider /\ id a = x
                              /\ visibility a = "timeline"
                              /\ leading_fields 3 (originalPath a) <> wedding)
      /\ (forall a, In a (blessed_copies_of wedding pair_and_outsider) <->
                    In a pair_and_outsider /\ leading_fields 3 (originalPath a) = wedding)).
Proof.
  split.
  - repeat split; try reflexivity. apply in_by_eqb. reflexivity.
  - exact (pfx_fields "/photos/hawks.png" "photos/wedding/a.jpg"
                      path_prefix_priority_list pair_and_outsider wedding).
Defined.

Example pfx_examples :
  pfx "/photos/hawks.png" = "/photos/hawks.png"
  /\ pfx "/photos/wedding/a.jpg" = "/photos/wedding"
  /\ pfx "/photos/wedding/album/a.jpg" = "/photos/wedding"
  /\ pfx "/photos//a.jpg" = "/photos/"
  /\ pfx "a.jpg" = "a.jpg"
  /\ pfx "" = ""
  /\ pfx upload_path = "upload/upload/d8fbf34b-0e56-43dd-87b3-b7774f6b3f3b".
Proof. repeat split; reflexivity. Qed.

Lemma unlisted_pair_unlisted (a : Asset) :
  In a unlisted_pair -> ~ In (pfx (originalPath a)) path_prefix_priority_list.
Proof.
  intros [<-|[<-|[]]]; apply not_in_by_eqb; reflexivity.
Defined.

(** C9, the claim as stated fails: no member of the set is under a listed
    prefix, and what [dedup] hands back is [None], not a report with a
    count of skipped sets. *)
Lemma dedup_keeps_no_count :
  (forall a, In a unlisted_pair -> ~ In (pfx (originalPath a)) path_prefix_priority_list)
  /\ fst (dedup path_prefix_priority_list (init (catalog_of unlisted_pair))) = Some PyNone
  /\ ~ exists report skipped,
         fst (dedup path_prefix_priority_list (init (catalog_of unlisted_pair)))
         = Some (PyDict report)
         /\ Py.dict_get "skippedCount" report = Some skipped.
Proof.
  split; [exact unlisted_pair_unlisted|]. split; [reflexivity|].
  intros [report [skipped [H _]]]. vm_compute in H. discriminate H.
Qed.

Lemma dedup_skips_unlisted_witness :
  (forall a, In a unlisted_pair -> ~ In (pfx (originalPath a)) path_prefix_priority_list)
  /\ ((forall st, dedup_set path_prefix_priority_list unlisted_pair st = (Some tt, st))
      /\ (forall before after st,
            for_each (before ++ unlisted_pair :: after)
                     (dedup_set path_prefix_priority_list) st =
            for_each (before ++ after) (dedup_set path_prefix_priority_list) st)
      /\ (forall srv, fst (dedup path_prefix_priority_list (init srv)) = Some PyNone)).
Proof.
  split; [exact unlisted_pair_unlisted|].
  exact (dedup_skips_unlisted path_prefix_priority_list unlisted_pair unlisted_pair_unlisted).
Defined.

Lemma find_assets_not_in_library_falsy_witness :
  (truthy_id None = false /\ truthy_id (Some "") = false)
  /\ find_assets_not_in_library None (init reaches_target) = (Some [], init reaches_target)
  /\ find_assets_not_in_library (Some "") (init reaches_target)
     = (Some [], init reaches_target).
Proof.
  split; [split; reflexivity|]. split.
  - exact (find_assets_not_in_library_falsy None (init reaches_target) eq_refl).
  - exact (find_assets_not_in_library_falsy (Some "") (init reaches_target) eq_refl).
Defined.

(** * Further properties of the code *)

(** ** [fix_path] *)

Example replace_examples :
  PyStr.replace "upload/upload" "/mnt/files/immich/upload" "upload/upload/a/b.jpg"
  = "/mnt/files/immich/upload/a/b.jpg"
  /\ PyStr.replace "ab" "x" "cababab-aab" = "cxxx-ax"
  /\ PyStr.replace "aa" "b" "aaa" = "ba".
Proof. repeat split; reflexivity. Qed.

Lemma endswith_snoc (s : string) : PyStr.endswith (s ++ "/") "/" = true.
Proof.
  induction s as [|a s IH]; [reflexivity|].
  cbn [append PyStr.endswith]. rewrite IH. apply orb_true_r.
Qed.

Lemma lstrip_head (c : ascii) (s : string) :
  PyStr.lstrip c s = EmptyString
  \/ exists a rest, PyStr.lstrip c s = String a rest /\ Ascii.eqb a c = false.
Proof.
  induction s as [|a s IH]; [now left|].
  cbn [PyStr.lstrip]. destruct (Ascii.eqb a c) eqn:E; [exact IH|].
  right. exists a, s. split; [reflexivity|assumption].
Qed.

Lemma lstrip_fixed (c a : ascii) (rest : string) :
  Ascii.eqb a c = false -> PyStr.lstrip c (String a rest) = String a rest.
Proof. intro E. cbn [PyStr.lstrip]. now rewrite E. Qed.

Lemma fix_path_cases (path : string) :
  (PyStr.lstrip slash path = EmptyString /\ fix_path path = "/")
  \/ exists a rest,
       Ascii.eqb a slash = false
       /\ fix_path path = String a rest
       /\ PyStr.endswith (String a rest) "/" = true.
Proof.
  unfold fix_path. destruct (lstrip_head slash path) as [E|[a [rest [E Ha]]]].
  - left. rewrite E. split; reflexivity.
  - right. rewrite E.
    destruct (PyStr.endswith (String a rest) "/") eqn:Hend; cbn [negb].
    + exists a, rest. repeat split; assumption.
    + exists a, (rest ++ "/")%string. split; [assumption|]. split; [reflexivity|].
      apply (endswith_snoc (String a rest)).
Qed.

(** X1.  [fix_path] always returns a path that ends with a slash, and the
    result starts with a slash only when it is the single slash, which is
    what a path made of slashes alone (the empty path included) becomes. *)
Theorem fix_path_normal_form (path : string) :
  PyStr.endswith (fix_path path) "/" = true
  /\ (PyStr.startswith (fix_path path) "/" = true <-> fix_path path = "/")
  /\ (fix_path path = "/" <-> PyStr.lstrip slash path = EmptyString).
Proof.
  destruct (fix_path_cases path) as [[E F]|[a [rest [Ha [F Hend]]]]].
  - rewrite F, E. repeat split; reflexivity.
  - rewrite F. split; [assumption|]. split; split; intro H.
    + unfold PyStr.startswith in H. rewrite prefix_cons in H.
      apply andb_true_iff in H as [H _]. rewrite Ascii.eqb_sym in H.
      change (Ascii.eqb a slash = true) in H. congruence.
    + injection H as -> ->. cbv in Ha. discriminate Ha.
    + injection H as -> ->. cbv in Ha. discriminate Ha.
    + unfold fix_path in F. rewrite H in F. cbn in F. injection F as <- <-.
      cbv in Ha. discriminate Ha.
Qed.

Lemma fix_path_fixed (path : string) : fix_path (fix_path path) = fix_path path.
Proof.
  destruct (fix_path_cases path) as [[_ F]|[a [rest [Ha [F Hend]]]]]; rewrite F.
  - reflexivity.
  - unfold fix_path. rewrite (lstrip_fixed slash a rest Ha), Hend. reflexivity.
Qed.

(** X2.  [fix_path] is idempotent: a path that it has normalised is
    returned as it is. *)
Theorem fix_path_idempotent (path : string) :
  fix_path (fix_path path) = fix_path path.
Proof. apply fix_path_fixed. Qed.

(** ** [find_true_path] *)

Lemma prefix_cons_false (a b : ascii) (p s : string) :
  Ascii.eqb a b = false -> String.prefix (String a p) (String b s) = false.
Proof. intro E. now rewrite prefix_cons, E. Qed.

Lemma startswith_slash (path : string) :
  PyStr.startswith path "/" = true -> exists rest, path = String slash rest.
Proof.
  unfold PyStr.startswith. destruct path as [|a rest]; [discriminate|].
  rewrite prefix_cons. intro H. apply andb_true_iff in H as [H _].
  apply Ascii.eqb_eq in H. subst a. now exists rest.
Qed.

Lemma rooted (path : string) :
  exists rest,
    (if negb (PyStr.startswith path "/") then ("/" ++ path)%string else path)
    = String slash rest.
Proof.
  destruct (PyStr.startswith path "/") eqn:E; cbn [negb].
  - now apply startswith_slash.
  - now exists path.
Qed.

Lemma prefix_split (p s : string) :
  String.prefix p s = true -> exists rest, s = (p ++ rest)%string.
Proof.
  revert s; induction p as [|a p IH]; intros s H.
  - now exists s.
  - destruct s as [|b s]; [discriminate H|].
    rewrite prefix_cons in H. apply andb_true_iff in H as [Hab Hp].
    apply Ascii.eqb_eq in Hab. subst b.
    destruct (IH s Hp) as [rest ->]. now exists rest.
Qed.

Lemma find_true_path_rooted (path : string) :
  PyStr.startswith path "/" = false ->
  find_true_path path = find_true_path ("/" ++ path).
Proof.
  intro H. unfold find_true_path. rewrite H.
  assert (Hs : PyStr.startswith ("/" ++ path) "/" = true) by apply (prefix_app "/" path).
  rewrite Hs. reflexivity.
Qed.

Lemma find_true_path_dropbox (rest : string) :
  find_true_path ("/dropbox" ++ rest) = Some ("/mnt/dropbox" ++ rest)%string.
Proof.
  unfold find_true_path.
  assert (Hs : PyStr.startswith ("/dropbox" ++ rest) "/" = true)
    by apply (prefix_app "/" ("dropbox" ++ rest)).
  assert (Hd : PyStr.startswith ("/dropbox" ++ rest) "/dropbox" = true)
    by apply (prefix_app "/dropbox" rest).
  rewrite Hs. cbn [negb]. now rewrite Hd.
Qed.

Lemma find_true_path_photos (rest : string) :
  find_true_path ("/photos" ++ rest) = Some ("/mnt/files/photos" ++ rest)%string.
Proof.
  unfold find_true_path.
  assert (Hs : PyStr.startswith ("/photos" ++ rest) "/" = true)
    by apply (prefix_app "/" ("photos" ++ rest)).
  assert (Hd : PyStr.startswith ("/photos" ++ rest) "/dropbox" = false).
  { unfold PyStr.startswith.
    change ("/photos" ++ rest)%string with (String "/" (String "p" ("hotos" ++ rest))).
    now rewrite !prefix_cons. }
  assert (Hp : PyStr.startswith ("/photos" ++ rest) "/photos" = true)
    by apply (prefix_app "/photos" rest).
  rewrite Hs. cbn [negb]. now rewrite Hd, Hp.
Qed.

Lemma relative_path (a : ascii) (rest : string) :
  Ascii.eqb a slash = false -> PyStr.startswith (String a rest) "/" = false.
Proof.
  intro H. unfold PyStr.startswith. rewrite prefix_cons, Ascii.eqb_sym.
  change (Ascii.eqb a slash && String.prefix "" rest = false). now rewrite H.
Qed.

(** X3.  [find_true_path] answers for the paths that start with
    [/dropbox] or [/photos], with or without the leading slash, and for no
    other: it returns [/mnt] or [/mnt/files] followed by the path with its
    leading slash, and for every other path it raises.  The branch for
    uploaded originals is never taken: a path that starts with [upload]
    has been given a leading slash before the test, so that it raises
    too. *)
Theorem find_true_path_cases (path : string) :
  (forall rest,
     path = ("/dropbox" ++ rest)%string \/ path = ("dropbox" ++ rest)%string ->
     find_true_path path = Some ("/mnt/dropbox" ++ rest)%string)
  /\ (forall rest,
        path = ("/photos" ++ rest)%string \/ path = ("photos" ++ rest)%string ->
        find_true_path path = Some ("/mnt/files/photos" ++ rest)%string)
  /\ (forall found,
        find_true_path path = Some found ->
        exists rest,
          ((path = ("/dropbox" ++ rest)%string \/ path = ("dropbox" ++ rest)%string)
           /\ found = ("/mnt/dropbox" ++ rest)%string)
          \/ ((path = ("/photos" ++ rest)%string \/ path = ("photos" ++ rest)%string)
              /\ found = ("/mnt/files/photos" ++ rest)%string))
  /\ (PyStr.startswith path "upload" = true -> find_true_path path = None).
Proof.
  split; [|split; [|split]].
  - intros rest [->| ->]; [apply find_true_path_dropbox|].
    rewrite find_true_path_rooted by (apply relative_path; reflexivity).
    apply (find_true_path_dropbox rest).
  - intros rest [->| ->]; [apply find_true_path_photos|].
    rewrite find_true_path_rooted by (apply relative_path; reflexivity).
    apply (find_true_path_photos rest).
  - intros found H. unfold find_true_path in H.
    destruct (rooted path) as [tail E].
    assert (Hup : PyStr.startswith (String slash tail) "upload" = false)
      by (apply prefix_cons_false; reflexivity).
    assert (Hpath : path = String slash tail \/ String slash tail = ("/" ++ path)%string).
    { destruct (negb (PyStr.startswith path "/")); [now right|now left]. }
    rewrite E in H.
    destruct (PyStr.startswith (String slash tail) "/dropbox") eqn:Hd.
    + apply prefix_split in Hd as [rest Hrest]. exists rest. left.
      injection H as <-. rewrite Hrest. split; [|reflexivity].
      destruct Hpath as [->|Hp]; [now left|right].
      rewrite Hrest in Hp. now injection Hp.
    + destruct (PyStr.startswith (String slash tail) "/photos") eqn:Hp.
      * apply prefix_split in Hp as [rest Hrest]. exists rest. right.
        injection H as <-. rewrite Hrest. split; [|reflexivity].
        destruct Hpath as [->|Hq]; [now left|right].
        rewrite Hrest in Hq. now injection Hq.
      * rewrite Hup in H. discriminate H.
  - intro Hu. apply prefix_split in Hu as [rest ->].
    rewrite find_true_path_rooted by (apply relative_path; reflexivity).
    unfold find_true_path.
    assert (Hs : PyStr.startswith ("/" ++ "upload" ++ rest) "/" = true)
      by apply (prefix_app "/" ("upload" ++ rest)).
    rewrite Hs. cbn [negb]. unfold PyStr.startswith.
    change ("/" ++ "upload" ++ rest)%string
      with (String "/" (String "u" ("pload" ++ rest))).
    now rewrite !prefix_cons.
Qed.

(** An original under [photos] without its leading slash, one under
    [/dropbox], and an uploaded one. *)
Lemma find_true_path_cases_witness :
  find_true_path "photos/wedding/a.jpg" = Some "/mnt/files/photos/wedding/a.jpg"
  /\ find_true_path "/dropbox/Camera Uploads/a.jpg" = Some "/mnt/dropbox/Camera Uploads/a.jpg"
  /\ (exists rest,
        (("/photos/wedding/a.jpg" = ("/dropbox" ++ rest)%string
          \/ "/photos/wedding/a.jpg" = ("dropbox" ++ rest)%string)
         /\ "/mnt/files/photos/wedding/a.jpg" = ("/mnt/dropbox" ++ rest)%string)
        \/ (("/photos/wedding/a.jpg" = ("/photos" ++ rest)%string
             \/ "/photos/wedding/a.jpg" = ("photos" ++ rest)%string)
            /\ "/mnt/files/photos/wedding/a.jpg" = ("/mnt/files/photos" ++ rest)%string))
  /\ (PyStr.startswith "upload/upload/d8/a.jpg" "upload" = true
      /\ find_true_path "upload/upload/d8/a.jpg" = None).
Proof.
  split; [|split; [|split; [|split]]].
  - exact (proj1 (proj2 (find_true_path_cases "photos/wedding/a.jpg"))
                 "/wedding/a.jpg" (or_intror eq_refl)).
  - exact (proj1 (find_true_path_cases "/dropbox/Camera Uploads/a.jpg")
                 "/Camera Uploads/a.jpg" (or_introl eq_refl)).
  - exact (proj1 (proj2 (proj2 (find_true_path_cases "/photos/wedding/a.jpg")))
                 "/mnt/files/photos/wedding/a.jpg" eq_refl).
  - reflexivity.
  - exact (proj2 (proj2 (proj2 (find_true_path_cases "upload/upload/d8/a.jpg"))) eq_refl).
Defined.

Example find_true_path_examples :
  find_true_path "/photos/wedding/a.jpg" = Some "/mnt/files/photos/wedding/a.jpg"
  /\ find_true_path "dropbox/a.jpg" = Some "/mnt/dropbox/a.jpg"
  /\ find_true_path "/elsewhere/a.jpg" = None
  /\ find_true_path "" = None.
Proof. repeat split; reflexivity. Qed.

(** ** Dictionaries *)

Lemma dict_get_set {V : Type} (k k' : string) (v : V) (d : Py.dict V) :
  Py.dict_get k (Py.dict_set k' v d) = if String.eqb k k' then Some v else Py.dict_get k d.
Proof.
  induction d as [|[k0 v0] d IH]; simpl.
  - destruct (String.eqb k k'); reflexivity.
  - destruct (String.eqb_spec k' k0) as [->|N]; simpl.
    + destruct (String.eqb k k0); reflexivity.
    + rewrite IH. destruct (String.eqb_spec k k0) as [->|N'];
        destruct (String.eqb_spec k0 k') as [E|N2]; try reflexivity.
      now subst.
Qed.

Lemma dict_mem_get {V : Type} (k : string) (d : Py.dict V) :
  dict_mem k d = match Py.dict_get k d with Some _ => true | None => false end.
Proof.
  unfold dict_mem. induction d as [|[k0 v0] d IH]; simpl; [reflexivity|].
  destruct (String.eqb k k0); simpl; auto.
Qed.

Lemma find_over_app {A : Type} (p : A -> bool) (l1 l2 : list A) :
  find p (l1 ++ l2) = match find p l1 with Some x => Some x | None => find p l2 end.
Proof.
  induction l1 as [|x l1 IH]; simpl; [reflexivity|]. now destruct (p x).
Qed.

Lemma dict_get_fold_set {V : Type} (k : string) (pairs : list (string * V)) (d : Py.dict V) :
  Py.dict_get k (fold_left (fun acc kv => Py.dict_set (fst kv) (snd kv) acc) pairs d) =
  match find (fun kv => String.eqb k (fst kv)) (rev pairs) with
  | Some kv => Some (snd kv)
  | None => Py.dict_get k d
  end.
Proof.
  revert d; induction pairs as [|[k0 v0] pairs IH]; intro d; simpl; [reflexivity|].
  rewrite IH, find_over_app. simpl.
  destruct (find (fun kv => String.eqb k (fst kv)) (rev pairs)); [reflexivity|].
  rewrite dict_get_set. destruct (String.eqb k k0); reflexivity.
Qed.

(** ** The headers of a request *)

(** X4.  In the headers [get] sends, a key the caller gives keeps the
    caller's value, and a key only the client has keeps the client's; when
    the caller gives no headers, or an empty dictionary, the headers are
    the client's. *)
Theorem get_headers_lookup {V : Type} (self_headers : Py.dict V)
        (req_headers : option (Py.dict V)) (k : string) :
  Py.dict_get k (get_headers self_headers req_headers) =
  match req_headers with
  | Some given =>
      match Py.dict_get k given with
      | Some v => Some v
      | None => Py.dict_get k self_headers
      end
  | None => Py.dict_get k self_headers
  end.
Proof.
  destruct req_headers as [given|]; [|reflexivity]. unfold get_headers.
  destruct given as [|kv given]; [reflexivity|]. cbn [Py.truthy_list].
  generalize (kv :: given) as headers. clear kv given.
  induction self_headers as [|[k0 v0] rest IH]; intro headers; simpl.
  - destruct (Py.dict_get k headers); reflexivity.
  - rewrite IH, dict_mem_get.
    destruct (Py.dict_get k0 headers) as [w|] eqn:E0; simpl.
    + destruct (String.eqb_spec k k0) as [->|N]; [now rewrite E0|reflexivity].
    + rewrite dict_get_set.
      destruct (String.eqb_spec k k0) as [->|N]; [now rewrite E0|reflexivity].
Qed.

(** ** The body of [updateAssets] *)

Lemma update_body_some (kwargs : list (string * Json)) (body : Py.dict Json) :
  (forall k v, In (k, v) kwargs -> In k update_allowed_keys) ->
  update_body kwargs body =
  Some (fold_left (fun acc kv => Py.dict_set (fst kv) (snd kv) acc) kwargs body).
Proof.
  revert body; induction kwargs as [|[k v] rest IH]; intros body H;
    cbn [update_body fold_left fst snd]; [reflexivity|].
  assert (Hk : existsb (String.eqb k) update_allowed_keys = true).
  { apply existsb_exists. exists k. split; [|apply String.eqb_refl].
    apply (H k v). now left. }
  rewrite Hk. cbn [negb]. apply IH. intros k' v' Hin. apply (H k' v'). now right.
Qed.

Lemma update_body_none (kwargs : list (string * Json)) (body : Py.dict Json) :
  update_body kwargs body = None <->
  exists k v, In (k, v) kwargs /\ ~ In k update_allowed_keys.
Proof.
  revert body; induction kwargs as [|[k v] rest IH]; intro body; cbn [update_body].
  - split; [discriminate|]. intros [k [v [[] _]]].
  - destruct (existsb (String.eqb k) update_allowed_keys) eqn:Hk; cbn [negb].
    + rewrite IH. split.
      * intros [k' [v' [Hin Hnot]]]. exists k', v'. split; [now right|assumption].
      * intros [k' [v' [[E|Hin] Hnot]]]; [|now exists k', v'].
        injection E as <- <-. exfalso. apply Hnot. now apply in_by_eqb.
    + split; [|reflexivity]. intros _. exists k, v. split; [now left|].
      now apply not_in_by_eqb.
Qed.

(** X5.  [updateAssets] raises, before any request, exactly when one of
    its keyword arguments is not among the allowed keys.  Otherwise the
    body of its request holds the ids under ["ids"] and, under every other
    key, what the keyword arguments hold. *)
Theorem updateAssets_body_spec (assetIds : list string) (kwargs : list (string * Json)) :
  (updateAssets_body assetIds kwargs = None <->
   exists k v, In (k, v) kwargs /\ ~ In k update_allowed_keys)
  /\ (forall body,
        updateAssets_body assetIds kwargs = Some body ->
        Py.dict_get "ids" body = Some (JIds assetIds)
        /\ forall k, k <> "ids" -> Py.dict_get k body = Py.dict_get k (Py.dict_of kwargs)).
Proof.
  unfold updateAssets_body. split.
  - rewrite <- (update_body_none kwargs []).
    destruct (update_body kwargs []); split; congruence.
  - intros body H.
    destruct (update_body kwargs []) as [b|] eqn:Hb; [|discriminate].
    injection H as <-. rewrite dict_get_set, String.eqb_refl. split; [reflexivity|].
    intros k Hk. rewrite dict_get_set.
    apply String.eqb_neq in Hk. rewrite Hk.
    assert (Hall : forall k v, In (k, v) kwargs -> In k update_allowed_keys).
    { intros k' v' Hin.
      destruct (existsb (String.eqb k') update_allowed_keys) eqn:E;
        [now apply in_by_eqb|].
      assert (Hnone : update_body kwargs [] = None).
      { apply update_body_none. exists k', v'. split; [assumption|].
        now apply not_in_by_eqb. }
      congruence. }
    rewrite (update_body_some kwargs [] Hall) in Hb. injection Hb as <-.
    reflexivity.
Qed.

Lemma updateAssets_body_spec_witness :
  updateAssets_body ["A"; "B"] [("visibility", JStr archive)]
  = Some [("visibility", JStr archive); ("ids", JIds ["A"; "B"])]
  /\ Py.dict_get "ids" [("visibility", JStr archive); ("ids", JIds ["A"; "B"])]
     = Some (JIds ["A"; "B"])
  /\ forall k, k <> "ids" ->
       Py.dict_get k [("visibility", JStr archive); ("ids", JIds ["A"; "B"])]
       = Py.dict_get k (Py.dict_of [("visibility", JStr archive)]).
Proof.
  split; [reflexivity|].
  exact (proj2 (updateAssets_body_spec ["A"; "B"] [("visibility", JStr archive)])
               [("visibility", JStr archive); ("ids", JIds ["A"; "B"])] eq_refl).
Defined.

(** X6.  [archive_assets] never sends a request: on an empty list it
    returns at once, and on any other list it raises, [isArchived] not
    being a key [updateAssets] allows. *)
Theorem archive_assets_never_puts (assetIds : list string) :
  archive_assets assetIds = match assetIds with [] => ReturnsAtOnce | _ :: _ => Raises end.
Proof. destruct assetIds; reflexivity. Qed.

(** ** The pages of [searchAssets] *)

(** X7.  When the service leads from the first page through finitely many
    pages, [searchAssets] requests each of these pages once, in order, and
    yields the items of all of them, in order; any bound on the requests
    that is at least the number of pages gives this result.  A first page
    that counts as false (0, the empty string) yields nothing and requests
    nothing. *)
Theorem searchAssets_pages_concat (respond : Json -> SearchPage) (page : option Json)
        (visited : list Json) (fuel : nat) :
  leads_through respond (match page with None => JNum 1 | Some p => p end) visited ->
  length visited <= fuel ->
  searchAssets_pages respond fuel page =
  Some (flat_map (fun p => items (respond p)) visited, visited).
Proof.
  unfold searchAssets_pages.
  generalize (match page with None => JNum 1 | Some p => p end) as start.
  intros start H. revert fuel. induction H as [p Hp|p rest Hp _ IH]; intros fuel Hfuel.
  - destruct fuel; cbn [searchAssets_from]; now rewrite Hp.
  - destruct fuel as [|fuel]; [simpl in Hfuel; lia|].
    cbn [searchAssets_from]. rewrite Hp. cbn [negb].
    rewrite IH by (simpl in Hfuel; lia). reflexivity.
Qed.

Lemma searchAssets_pages_concat_witness :
  (leads_through three_pages (JNum 1) [JNum 1; JStr "2"; JStr "3"]
   /\ length [JNum 1; JStr "2"; JStr "3"] <= 5)
  /\ searchAssets_pages three_pages 5 None =
     Some (flat_map (fun p => items (three_pages p)) [JNum 1; JStr "2"; JStr "3"],
           [JNum 1; JStr "2"; JStr "3"]).
Proof.
  assert (H : leads_through three_pages (JNum 1) [JNum 1; JStr "2"; JStr "3"]).
  { apply leads_on; [reflexivity|]. apply leads_on; [reflexivity|].
    apply leads_on; [reflexivity|]. apply leads_nowhere. reflexivity. }
  assert (L : length [JNum 1; JStr "2"; JStr "3"] <= 5) by (simpl; lia).
  split; [split; assumption|].
  exact (searchAssets_pages_concat three_pages None [JNum 1; JStr "2"; JStr "3"] 5 H L).
Defined.

(** ** The duplicate index *)

Lemma dict_get_index (listing : list DupSet) (dupid : string) :
  Py.dict_get dupid
    (Py.dict_of (map (fun dup_set => (ds_duplicateId dup_set, dup_set)) listing)) =
  find (fun d => String.eqb dupid (ds_duplicateId d)) (rev listing).
Proof.
  unfold Py.dict_of. rewrite dict_get_fold_set, <- map_rev, find_map. simpl.
  now destruct (find _ (rev listing)).
Qed.

Lemma fill_dup_cache_synced (st : ImmichApi.t) :
  synced st ->
  exists st',
    fill_dup_cache st = (Some tt, st')
    /\ server st' = server st
    /\ dup_cache st' = duplicates (server st)
    /\ dups_by_duplicateId st' =
       Py.dict_of (map (fun dup_set => (ds_duplicateId dup_set, dup_set))
                       (duplicates (server st)))
    /\ sent st' = sent st ++ (if Py.truthy_list (dup_cache st) then [] else [GetDuplicates]).
Proof.
  unfold fill_dup_cache. intros [[Hc Hd]|[Hc Hd]].
  - rewrite Hc. simpl. eexists. split; [reflexivity|]. simpl. auto.
  - destruct (Py.truthy_list (dup_cache st)) eqn:Ht.
    + exists st. rewrite app_nil_r. auto.
    + apply truthy_list_false in Ht. simpl. eexists. split; [reflexivity|]. simpl. auto.
Qed.

Lemma dups_of_synced (asset : Asset) (st : ImmichApi.t) :
  synced st ->
  exists st',
    dups_of asset st = (Some (siblings_in (duplicates (server st)) asset), st')
    /\ synced st'
    /\ sends_only (fun r => r = GetDuplicates) st st'.
Proof.
  intro Hs. destruct (fill_dup_cache_synced st Hs) as [st' [Hf [Hsrv [Hc [Hd Hsent]]]]].
  exists st'. unfold dups_of, bind. rewrite Hf. split; [|split].
  - unfold siblings_in. destruct (duplicateId asset) as [dupid|]; [|reflexivity].
    rewrite Hd, dict_get_index. now destruct (find _ (rev (duplicates (server st)))).
  - right. now rewrite Hsrv.
  - split; [assumption|]. eexists. split; [exact Hsent|].
    destruct (Py.truthy_list (dup_cache st)); repeat constructor.
Qed.

Lemma synced_init (srv : Server) : synced (init srv).
Proof. left. split; reflexivity. Qed.

(** X8.  On a client whose caches are empty or hold the service's listing,
    [dups(asset)] returns the members, other than the asset itself, of the
    last duplicate set of the listing that carries the asset's
    [duplicateId], and the empty list when the asset has no [duplicateId]
    or no set carries it.  The asset is never among its own duplicates, and
    every duplicate returned is a member of a set of the listing. *)
Theorem dups_of_siblings (asset : Asset) (st : ImmichApi.t) :
  synced st ->
  fst (dups_of asset st) = Some (siblings_in (duplicates (server st)) asset)
  /\ ~ In asset (siblings_in (duplicates (server st)) asset)
  /\ (forall other, In other (siblings_in (duplicates (server st)) asset) ->
        exists d, In d (duplicates (server st))
                  /\ duplicateId asset = Some (ds_duplicateId d)
                  /\ In other (assets d))
  /\ (forall d, NoDup (map ds_duplicateId (duplicates (server st))) ->
        In d (duplicates (server st)) ->
        duplicateId asset = Some (ds_duplicateId d) ->
        siblings_in (duplicates (server st)) asset =
        filter (fun other => negb (Asset_eqb other asset)) (assets d)).
Proof.
  intro Hs. destruct (dups_of_synced asset st Hs) as [st' [H _]].
  rewrite H. split; [reflexivity|]. unfold siblings_in.
  destruct (duplicateId asset) as [dupid|].
  2:{ split; [tauto|]. split; [contradiction|discriminate]. }
  destruct (find (fun d => String.eqb dupid (ds_duplicateId d))
                 (rev (duplicates (server st)))) as [d|] eqn:Hfind.
  - apply find_some in Hfind as Hd. destruct Hd as [Hin Hid].
    apply in_rev in Hin. apply String.eqb_eq in Hid. subst dupid.
    split; [|split].
    + intro Hself. apply filter_In in Hself as [_ Hne].
      now rewrite Asset_eqb_refl in Hne.
    + intros other Ho. apply filter_In in Ho as [Ho _]. now exists d.
    + intros d' Hnd Hd' E. injection E as E.
      now rewrite (NoDup_map_inj ds_duplicateId _ d d' Hnd Hin Hd' E).
  - split; [tauto|]. split; [contradiction|].
    intros d' _ Hd' E. injection E as ->. exfalso.
    apply (in_rev (duplicates (server st))) in Hd'.
    apply (find_none _ _ Hfind) in Hd'. now rewrite String.eqb_refl in Hd'.
Qed.

Lemma dups_of_siblings_witness :
  synced (init reaches_target)
  /\ fst (dups_of in_one (init reaches_target))
     = Some (siblings_in (duplicates (server (init reaches_target))) in_one)
  /\ siblings_in (duplicates (server (init reaches_target))) in_one = [in_target].
Proof.
  split; [apply synced_init|]. split; [|reflexivity].
  exact (proj1 (dups_of_siblings in_one (init reaches_target) (synced_init reaches_target))).
Defined.

Lemma dups_filled (st : ImmichApi.t) :
  dup_cache st <> [] -> dups st = (Some (dup_cache st), st).
Proof.
  intro H. unfold dups, bind, fill_dup_cache. now rewrite (truthy_list_true _ H).
Qed.

Lemma dups_times_succ (n : nat) (st : ImmichApi.t) :
  dups_times (S n) st =
  match dups st with
  | (Some _, st') => dups_times n st'
  | (None, st') => (None, st')
  end.
Proof.
  unfold dups_times. cbn [repeat for_each]. unfold bind at 1 2.
  destruct (dups st) as [[l|] st']; reflexivity.
Qed.

Lemma dups_times_filled (n : nat) (st : ImmichApi.t) :
  dup_cache st <> [] -> dups_times n st = (Some tt, st).
Proof.
  intro H. induction n as [|n IH]; [reflexivity|].
  now rewrite dups_times_succ, (dups_filled st H).
Qed.

Lemma dups_empty (srv : Server) (log : list Request) :
  duplicates srv = [] ->
  dups (mkApi srv [] [] log) = (Some [], mkApi srv [] [] (log ++ [GetDuplicates])).
Proof.
  intro H. unfold dups, bind, fill_dup_cache. simpl. now rewrite H.
Qed.

Lemma dups_times_empty (n : nat) (srv : Server) (log : list Request) :
  duplicates srv = [] ->
  dups_times n (mkApi srv [] [] log) =
  (Some tt, mkApi srv [] [] (log ++ repeat GetDuplicates n)).
Proof.
  intro H. revert log; induction n as [|n IH]; intro log.
  - simpl. now rewrite app_nil_r.
  - rewrite dups_times_succ, (dups_empty srv log H), IH, <- app_assoc. reflexivity.
Qed.

(** X9.  However many times [dups()] is called on a new client, the
    service is asked for the duplicates once when its listing is not
    empty: the first call fills the cache and the others read it.  When the
    listing is empty the cache stays empty, and every call asks again. *)
Theorem dups_memoized (n : nat) (srv : Server) :
  (duplicates srv <> [] ->
   sent (snd (dups_times (S n) (init srv))) = [GetDuplicates]
   /\ dup_cache (snd (dups_times (S n) (init srv))) = duplicates srv)
  /\ (duplicates srv = [] ->
      sent (snd (dups_times n (init srv))) = repeat GetDuplicates n).
Proof.
  split; intro H.
  - rewrite dups_times_succ, dups_fresh, dups_times_filled by exact H.
    split; reflexivity.
  - unfold init. now rewrite (dups_times_empty n srv [] H).
Qed.

Lemma dups_memoized_witness :
  (duplicates (catalog_of settled_pair) <> []
   /\ duplicates (mkServer [] [] (fun _ => [])) = [])
  /\ (sent (snd (dups_times 3 (init (catalog_of settled_pair)))) = [GetDuplicates]
      /\ dup_cache (snd (dups_times 3 (init (catalog_of settled_pair))))
         = duplicates (catalog_of settled_pair))
  /\ sent (snd (dups_times 3 (init (mkServer [] [] (fun _ => [])))))
     = repeat GetDuplicates 3.
Proof.
  assert (H : duplicates (catalog_of settled_pair) <> []) by discriminate.
  split; [split; [assumption|reflexivity]|]. split.
  - exact (proj1 (dups_memoized 2 (catalog_of settled_pair)) H).
  - exact (proj2 (dups_memoized 3 (mkServer [] [] (fun _ => []))) eq_refl).
Defined.

(** ** The libraries *)

Lemma dict_set_keys {V : Type} (k : string) (v : V) (d : Py.dict V) :
  map fst (Py.dict_set k v d) = if dict_mem k d then map fst d else map fst d ++ [k].
Proof.
  unfold dict_mem. induction d as [|[k0 v0] d IH]; simpl; [reflexivity|].
  destruct (String.eqb_spec k k0) as [->|N]; simpl; [reflexivity|].
  rewrite IH. now destruct (existsb _ d).
Qed.

Lemma dict_mem_keys {V : Type} (k : string) (d : Py.dict V) :
  dict_mem k d = false -> ~ In k (map fst d).
Proof.
  unfold dict_mem. intros H Hin. apply in_map_iff in Hin as [[k0 v0] [E Hin]].
  simpl in E. subst k0.
  assert (T : existsb (fun kv => String.eqb k (fst kv)) d = true).
  { apply existsb_exists. exists (k, v0). split; [assumption|apply String.eqb_refl]. }
  congruence.
Qed.

Lemma dict_set_NoDup {V : Type} (k : string) (v : V) (d : Py.dict V) :
  NoDup (map fst d) -> NoDup (map fst (Py.dict_set k v d)).
Proof.
  intro H. rewrite dict_set_keys. destruct (dict_mem k d) eqn:E; [assumption|].
  apply NoDup_app; [assumption|repeat constructor; auto|].
  intros x Hx [<-|[]]. now apply (dict_mem_keys k d E).
Qed.

Lemma dict_of_NoDup {V : Type} (pairs : list (string * V)) :
  NoDup (map fst (Py.dict_of pairs)).
Proof.
  unfold Py.dict_of.
  assert (G : forall d : Py.dict V, NoDup (map fst d) ->
              NoDup (map fst (fold_left (fun acc kv => Py.dict_set (fst kv) (snd kv) acc)
                                        pairs d))).
  { induction pairs as [|kv pairs IH]; intros d Hd; simpl; [assumption|].
    apply IH. now apply dict_set_NoDup. }
  apply G. constructor.
Qed.

Lemma get_all_libraries_run (st : ImmichApi.t) :
  get_all_libraries st =
  (Some (libraries_by_id (libraries (server st))), logged [GetLibraries] st).
Proof. reflexivity. Qed.

(** X10.  The dictionary [get_all_libraries] returns always holds the
    upload pseudo-library, named [upload], under the upload device id, also
    when the service lists a library with that id; under any other id it
    holds the last library the service lists with that id, if any; and no
    id is a key twice, so that a loop over it meets each library once. *)
Theorem get_all_libraries_lookup (st : ImmichApi.t) :
  exists by_id,
    fst (get_all_libraries st) = Some by_id
    /\ Py.dict_get upload_device_id by_id = Some (mkLibrary upload_device_id "upload")
    /\ (forall libId, libId <> upload_device_id ->
          Py.dict_get libId by_id =
          find (fun library => String.eqb libId (lib_id library))
               (rev (libraries (server st))))
    /\ NoDup (map fst by_id).
Proof.
  exists (libraries_by_id (libraries (server st))). split; [reflexivity|].
  unfold libraries_by_id. split; [|split].
  - now rewrite dict_get_set, String.eqb_refl.
  - intros libId N. rewrite dict_get_set. apply String.eqb_neq in N. rewrite N.
    unfold Py.dict_of. rewrite dict_get_fold_set, <- map_rev, find_map. simpl.
    now destruct (find _ (rev (libraries (server st)))).
  - apply dict_set_NoDup, dict_of_NoDup.
Qed.

(** ** Loops that only read *)

Lemma logged_logged (r1 r2 : list Request) (st : ImmichApi.t) :
  logged r2 (logged r1 st) = logged (r1 ++ r2) st.
Proof. unfold logged. simpl. now rewrite app_assoc. Qed.

Lemma logged_nil (st : ImmichApi.t) : logged [] st = st.
Proof. unfold logged. rewrite app_nil_r. now destruct st. Qed.

Lemma get_library_assets_run (libId : string) (st : ImmichApi.t) :
  get_library_assets libId st =
  (Some (search (server st) (search_key libId)),
   logged [SearchMetadata (search_key libId)] st).
Proof.
  unfold get_library_assets, search_key.
  destruct (String.eqb libId upload_device_id); reflexivity.
Qed.

Lemma fold_left_app_each {A B : Type} (g : A -> list B) (l : list A) (acc : list B) :
  fold_left (fun acc x => acc ++ g x) l acc = acc ++ flat_map g l.
Proof.
  revert acc; induction l as [|x l IH]; intro acc; simpl.
  - now rewrite app_nil_r.
  - now rewrite IH, app_assoc.
Qed.

Lemma flat_map_singletons {A : Type} (p : A -> bool) (l : list A) :
  flat_map (fun x => if p x then [x] else []) l = filter p l.
Proof.
  induction l as [|x l IH]; simpl; [reflexivity|]. rewrite IH. now destruct (p x).
Qed.

(** ** [find_all_single_stored_assets] *)

Lemma single_stored_inner (name : string) (found : list Asset)
      (acc : list (string * Asset)) (st : ImmichApi.t) :
  for_fold found
    (fun acc asset =>
       match duplicateId asset with
       | None => ret (acc ++ [(name, asset)])
       | Some _ => ret acc
       end) acc st =
  (Some (acc ++ map (pair name) (filter no_duplicateId found)), st).
Proof.
  revert acc; induction found as [|a found IH]; intro acc; simpl.
  - now rewrite app_nil_r.
  - unfold bind, no_duplicateId at 1. destruct (duplicateId a); simpl.
    + apply IH.
    + rewrite IH, <- app_assoc. reflexivity.
Qed.

Lemma single_stored_outer (entries : Py.dict Library) (acc : list (string * Asset))
      (st : ImmichApi.t) :
  for_fold entries
    (fun acc entry =>
       found <- get_library_assets (fst entry) ;;
       for_fold found
         (fun acc asset =>
            match duplicateId asset with
            | None => ret (acc ++ [(lib_name (snd entry), asset)])
            | Some _ => ret acc
            end)
         acc) acc st =
  (Some (acc ++ flat_map
                  (fun entry =>
                     map (pair (lib_name (snd entry)))
                         (filter no_duplicateId (search (server st) (search_key (fst entry)))))
                  entries),
   logged (map (fun entry => SearchMetadata (search_key (fst entry))) entries) st).
Proof.
  revert acc st; induction entries as [|e entries IH]; intros acc st; simpl.
  - now rewrite app_nil_r, logged_nil.
  - unfold bind at 1. unfold bind at 1.
    rewrite get_library_assets_run, single_stored_inner, IH, logged_logged.
    simpl. now rewrite <- app_assoc.
Qed.

(** X11.  [find_all_single_stored_assets] returns, library by library in
    the order of [get_all_libraries] and in the order the service
    enumerates each library, the assets that have no [duplicateId], each
    with the name of the library it was enumerated from.  It asks for the
    libraries twice and searches every library once; it asks neither for
    the duplicates nor for any update, and it leaves the service and the
    caches of the client as they are. *)
Theorem find_all_single_stored_assets_run (st : ImmichApi.t) :
  find_all_single_stored_assets st =
  (Some (flat_map
           (fun entry =>
              map (pair (lib_name (snd entry)))
                  (filter no_duplicateId (search (server st) (search_key (fst entry)))))
           (libraries_by_id (libraries (server st)))),
   logged ([GetLibraries; GetLibraries]
           ++ map (fun entry => SearchMetadata (search_key (fst entry)))
                  (libraries_by_id (libraries (server st))))
          st).
Proof.
  unfold find_all_single_stored_assets. unfold bind at 1. rewrite get_all_libraries_run.
  unfold bind at 1. rewrite get_all_libraries_run, single_stored_outer.
  rewrite !logged_logged. reflexivity.
Qed.

(** ** [find_assets_not_in_library] *)

Lemma sends_only_refl (allowed : Request -> Prop) (st : ImmichApi.t) :
  sends_only allowed st st.
Proof.
  split; [reflexivity|]. exists []. split; [now rewrite app_nil_r|constructor].
Qed.

Lemma sends_only_trans (allowed : Request -> Prop) (a b c : ImmichApi.t) :
  sends_only allowed a b -> sends_only allowed b c -> sends_only allowed a c.
Proof.
  intros [S1 [r1 [E1 F1]]] [S2 [r2 [E2 F2]]]. split; [congruence|].
  exists (r1 ++ r2). split.
  - now rewrite E2, E1, app_assoc.
  - apply Forall_app. now split.
Qed.

Lemma sends_only_weaken (allowed allowed' : Request -> Prop) (a b : ImmichApi.t) :
  (forall r, allowed r -> allowed' r) -> sends_only allowed a b -> sends_only allowed' a b.
Proof.
  intros H [S [r [E F]]]. split; [assumption|]. exists r. split; [assumption|].
  eapply Forall_impl; eassumption.
Qed.

Lemma sends_only_logged (allowed : Request -> Prop) (requests : list Request)
      (st : ImmichApi.t) :
  Forall allowed requests -> sends_only allowed st (logged requests st).
Proof. intro H. split; [reflexivity|]. now exists requests. Qed.

Lemma for_fold_sends {A S : Type} (T : ImmichApi.t -> ImmichApi.t -> Prop)
      (body : S -> A -> M S) (l : list A) :
  (forall st, T st st) ->
  (forall a b c, T a b -> T b c -> T a c) ->
  (forall acc x st, In x l -> exists acc' st', body acc x st = (Some acc', st') /\ T st st') ->
  forall acc st, exists acc' st', for_fold l body acc st = (Some acc', st') /\ T st st'.
Proof.
  intros Trefl Ttrans. induction l as [|x l IH]; intros Hbody acc st; simpl.
  - exists acc, st. split; [reflexivity|apply Trefl].
  - destruct (Hbody acc x st (or_introl eq_refl)) as [acc1 [st1 [E1 T1]]].
    unfold bind. rewrite E1.
    destruct (IH (fun acc x st H => Hbody acc x st (or_intror H)) acc1 st1)
      as [acc2 [st2 [E2 T2]]].
    exists acc2, st2. split; [assumption|]. eapply Ttrans; eassumption.
Qed.

Lemma for_fold_run {A S : Type} (I : ImmichApi.t -> Prop)
      (T : ImmichApi.t -> ImmichApi.t -> Prop) (f : S -> A -> S)
      (body : S -> A -> M S) (l : list A) :
  (forall st, T st st) ->
  (forall a b c, T a b -> T b c -> T a c) ->
  (forall acc x st, In x l -> I st ->
     exists st', body acc x st = (Some (f acc x), st') /\ I st' /\ T st st') ->
  forall acc st, I st ->
    exists st', for_fold l body acc st = (Some (fold_left f l acc), st') /\ I st' /\ T st st'.
Proof.
  intros Trefl Ttrans. induction l as [|x l IH]; intros Hbody acc st HI; simpl.
  - exists st. repeat split; [assumption|apply Trefl].
  - destruct (Hbody acc x st (or_introl eq_refl) HI) as [st1 [E1 [I1 T1]]].
    unfold bind. rewrite E1.
    destruct (IH (fun acc x st H => Hbody acc x st (or_intror H)) (f acc x) st1 I1)
      as [st2 [E2 [I2 T2]]].
    exists st2. repeat split; try assumption. eapply Ttrans; eassumption.
Qed.

Lemma fill_dup_cache_sends (st : ImmichApi.t) :
  exists st', fill_dup_cache st = (Some tt, st')
              /\ sends_only (fun r => r = GetDuplicates) st st'.
Proof.
  unfold fill_dup_cache. destruct (Py.truthy_list (dup_cache st)).
  - exists st. split; [reflexivity|apply sends_only_refl].
  - simpl. eexists. split; [reflexivity|]. split; [reflexivity|].
    exists [GetDuplicates]. split; [reflexivity|]. constructor; [reflexivity|constructor].
Qed.

Lemma dups_of_sends (asset : Asset) (st : ImmichApi.t) :
  exists siblings st',
    dups_of asset st = (Some siblings, st')
    /\ sends_only (fun r => r = GetDuplicates) st st'.
Proof.
  destruct (fill_dup_cache_sends st) as [st' [E T]].
  unfold dups_of, bind. rewrite E.
  destruct (duplicateId asset) as [dupid|]; [|now eexists _, st'].
  destruct (Py.dict_get dupid (dups_by_duplicateId st')); now eexists _, st'.
Qed.

Lemma classify_sends (target : option string) (libId : string) (acc : list Asset)
      (asset : Asset) (st : ImmichApi.t) :
  exists acc' st',
    classify libId acc asset st = (Some acc', st')
    /\ sends_only (reads_around target) st st'.
Proof.
  unfold classify. destruct (duplicateId asset).
  - destruct (dups_of_sends asset st) as [siblings [st' [E T]]].
    unfold bind. rewrite E.
    assert (T' : sends_only (reads_around target) st st').
    { eapply sends_only_weaken; [|exact T]. intros r ->. right. now left. }
    destruct (not_among_libraries libId siblings); now eexists _, st'.
  - eexists _, st. split; [reflexivity|apply sends_only_refl].
Qed.

Lemma search_key_inj (a b : string) : search_key a = search_key b -> a = b.
Proof.
  unfold search_key.
  destruct (String.eqb_spec a upload_device_id) as [->|Na];
    destruct (String.eqb_spec b upload_device_id) as [->|Nb];
    intro H; try discriminate H; [reflexivity|now injection H].
Qed.

Lemma option_string_eqb_false (a : string) (o : option string) :
  option_eqb String.eqb (Some a) o = false -> Some a <> o.
Proof.
  destruct o as [b|]; simpl; intros H E; [|discriminate E].
  injection E as ->. now rewrite String.eqb_refl in H.
Qed.

Lemma not_in_library_outer_sends (targetLibraryId : option string)
      (entries : Py.dict Library) (acc : list Asset) (st : ImmichApi.t) :
  exists found st',
    for_fold entries
      (fun acc entry =>
         let libId := fst entry in
         if option_eqb String.eqb (Some libId) targetLibraryId then ret acc
         else found <- get_library_assets libId ;;
              for_fold found (classify libId) acc)
      acc st = (Some found, st')
    /\ sends_only (reads_around targetLibraryId) st st'.
Proof.
  apply for_fold_sends; [apply sends_only_refl|apply sends_only_trans|].
  intros acc' entry s _. cbn zeta.
  destruct (option_eqb String.eqb (Some (fst entry)) targetLibraryId) eqn:Ht.
  - exists acc', s. split; [reflexivity|apply sends_only_refl].
  - unfold bind. rewrite get_library_assets_run.
    destruct (for_fold_sends (sends_only (reads_around targetLibraryId))
                (classify (fst entry)) (search (server s) (search_key (fst entry)))
                (sends_only_refl _) (sends_only_trans _)
                (fun acc x st _ => classify_sends targetLibraryId (fst entry) acc x st)
                acc' (logged [SearchMetadata (search_key (fst entry))] s))
      as [acc2 [s' [E T]]].
    exists acc2, s'. split; [exact E|].
    eapply sends_only_trans; [|exact T]. apply sends_only_logged.
    constructor; [|constructor]. right. right. exists (fst entry).
    split; [now apply option_string_eqb_false|reflexivity].
Qed.

(** X12.  [find_assets_not_in_library] only reads: on any client and for
    any target it returns without raising, the service is as before, and
    the requests it has sent are for the libraries, for the duplicates and
    for the assets of libraries other than the target; it never asks for
    the assets of the target library and never for an update. *)
Theorem find_assets_not_in_library_reads (targetLibraryId : option string)
        (st : ImmichApi.t) :
  exists found st' requests,
    find_assets_not_in_library targetLibraryId st = (Some found, st')
    /\ server st' = server st
    /\ sent st' = sent st ++ requests
    /\ (forall ids v, ~ In (PutAssets ids v) requests)
    /\ (forall target, targetLibraryId = Some target ->
          ~ In (SearchMetadata (search_key target)) requests).
Proof.
  assert (H : exists found st',
             find_assets_not_in_library targetLibraryId st = (Some found, st')
             /\ sends_only (reads_around targetLibraryId) st st').
  { unfold find_assets_not_in_library.
    destruct (negb (truthy_id targetLibraryId)).
    { exists [], st. split; [reflexivity|apply sends_only_refl]. }
    unfold bind at 1. rewrite get_all_libraries_run.
    unfold bind at 1. rewrite get_all_libraries_run.
    destruct (not_in_library_outer_sends targetLibraryId
                (libraries_by_id (libraries (server (logged [GetLibraries] st)))) []
                (logged [GetLibraries] (logged [GetLibraries] st)))
      as [found [st' [E T]]].
    exists found, st'. split; [exact E|].
    eapply sends_only_trans; [|exact T].
    eapply sends_only_trans; apply sends_only_logged;
      (constructor; [now left|constructor]). }
  destruct H as [found [st' [E [Hsrv [requests [Hsent Hall]]]]]].
  exists found, st', requests. repeat split; try assumption.
  - intros ids v Hin. rewrite Forall_forall in Hall.
    destruct (Hall _ Hin) as [C|[C|[l [_ C]]]]; discriminate C.
  - intros target -> Hin. rewrite Forall_forall in Hall.
    destruct (Hall _ Hin) as [C|[C|[l [N C]]]]; try discriminate C.
    injection C as C. apply search_key_inj in C. congruence.
Qed.

Lemma synced_logged (requests : list Request) (st : ImmichApi.t) :
  synced st -> synced (logged requests st).
Proof. intro H. exact H. Qed.

Lemma classify_run (libId : string) (acc : list Asset) (asset : Asset) (st : ImmichApi.t) :
  synced st ->
  exists st',
    classify libId acc asset st =
    (Some (acc ++ if listed_from (duplicates (server st)) libId asset then [asset] else []), st')
    /\ synced st' /\ server st' = server st.
Proof.
  intro Hs. unfold classify, listed_from, no_duplicateId.
  destruct (duplicateId asset) as [dupid|] eqn:Hd.
  - destruct (dups_of_synced asset st Hs) as [st' [E [Hs' [Hsrv _]]]].
    unfold bind. rewrite E. exists st'. cbn [orb].
    destruct (not_among_libraries libId (siblings_in (duplicates (server st)) asset));
      [|rewrite app_nil_r]; auto.
  - exists st. auto.
Qed.

Lemma classify_loop (srv : Server) (libId : string) (found acc : list Asset)
      (st : ImmichApi.t) :
  synced st -> server st = srv ->
  exists st',
    for_fold found (classify libId) acc st =
    (Some (acc ++ filter (listed_from (duplicates srv) libId) found), st')
    /\ synced st' /\ server st' = srv.
Proof.
  intros Hs Hsrv.
  destruct (for_fold_run (fun s => synced s /\ server s = srv) (fun _ _ => True)
              (fun acc asset =>
                 acc ++ if listed_from (duplicates srv) libId asset then [asset] else [])
              (classify libId) found (fun _ => I) (fun _ _ _ _ _ => I))
    with (acc := acc) (st := st) as [st' [E [[Hs' Hsrv'] _]]].
  - intros acc' x s _ [Hsync Hserver].
    destruct (classify_run libId acc' x s Hsync) as [s' [E [Hs1 Hs2]]].
    exists s'. rewrite Hserver in E. repeat split; [exact E|assumption|congruence].
  - now split.
  - exists st'. rewrite fold_left_app_each, flat_map_singletons in E. auto.
Qed.

(** X13.  On a client whose caches are empty or hold the service's
    listing, and for a target that is neither [None] nor empty,
    [find_assets_not_in_library] returns, library by library in the order
    of [get_all_libraries] with the target left out, the assets the service
    enumerates for the library that have no [duplicateId] or that have no
    duplicate whose [libraryId] is the library being enumerated. *)
Theorem find_assets_not_in_library_listing (targetLibraryId : option string)
        (st : ImmichApi.t) :
  synced st ->
  truthy_id targetLibraryId = true ->
  fst (find_assets_not_in_library targetLibraryId st) =
  Some (flat_map
          (fun entry =>
             if option_eqb String.eqb (Some (fst entry)) targetLibraryId then []
             else filter (listed_from (duplicates (server st)) (fst entry))
                         (search (server st) (search_key (fst entry))))
          (libraries_by_id (libraries (server st)))).
Proof.
  intros Hs Ht. unfold find_assets_not_in_library. rewrite Ht. cbn [negb].
  unfold bind at 1. rewrite get_all_libraries_run.
  unfold bind at 1. rewrite get_all_libraries_run.
  destruct (for_fold_run (fun s => synced s /\ server s = server st) (fun _ _ => True)
              (fun acc entry =>
                 acc ++ if option_eqb String.eqb (Some (fst entry)) targetLibraryId then []
                        else filter (listed_from (duplicates (server st)) (fst entry))
                                    (search (server st) (search_key (fst entry))))
              (fun acc entry =>
                 if option_eqb String.eqb (Some (fst entry)) targetLibraryId then ret acc
                 else found <- get_library_assets (fst entry) ;;
                      for_fold found (classify (fst entry)) acc)
              (libraries_by_id (libraries (server (logged [GetLibraries] st))))
              (fun _ => I) (fun _ _ _ _ _ => I))
    with (acc := @nil Asset) (st := logged [GetLibraries] (logged [GetLibraries] st))
    as [st' [E _]].
  - intros acc entry s _ [Hsync Hserver]. cbn zeta.
    destruct (option_eqb String.eqb (Some (fst entry)) targetLibraryId).
    + exists s. rewrite app_nil_r. repeat split; auto.
    + unfold bind. rewrite get_library_assets_run.
      destruct (classify_loop (server st) (fst entry)
                  (search (server s) (search_key (fst entry))) acc
                  (logged [SearchMetadata (search_key (fst entry))] s))
        as [s' [E [Hs1 Hs2]]]; [exact Hsync|exact Hserver|].
      exists s'. split; [rewrite E, Hserver; reflexivity|]. split; [|exact I].
      split; assumption.
  - split; [exact Hs|reflexivity].
  - cbv beta. rewrite E. cbn [fst]. rewrite fold_left_app_each. reflexivity.
Qed.

Lemma find_assets_not_in_library_listing_witness :
  (synced (init reaches_target) /\ truthy_id (Some "lib-target") = true)
  /\ fst (find_assets_not_in_library (Some "lib-target") (init reaches_target)) =
     Some (flat_map
             (fun entry =>
                if option_eqb String.eqb (Some (fst entry)) (Some "lib-target") then []
                else filter (listed_from (duplicates (server (init reaches_target))) (fst entry))
                            (search (server (init reaches_target)) (search_key (fst entry))))
             (libraries_by_id (libraries (server (init reaches_target))))).
Proof.
  split; [split; [apply synced_init|reflexivity]|].
  exact (find_assets_not_in_library_listing (Some "lib-target") (init reaches_target)
           (synced_init reaches_target) eq_refl).
Defined.

(** ** The blessed prefix *)

Lemma find_first {A : Type} (p : A -> bool) (l : list A) (x : A) :
  find p l = Some x ->
  exists before after,
    l = before ++ x :: after /\ p x = true /\ forall y, In y before -> p y = false.
Proof.
  induction l as [|y l IH]; simpl; [discriminate|].
  destruct (p y) eqn:E.
  - intro H. injection H as <-. exists [], l. repeat split; [assumption|contradiction].
  - intro H. destruct (IH H) as [before [after [-> [Hx Hb]]]].
    exists (y :: before), after. repeat split; [assumption|].
    intros z [<-|Hz]; auto.
Qed.

Lemma has_prefix_members (prefix : string) (l l' : list Asset) :
  (forall a, In a l -> In a l') -> has_prefix prefix l = true -> has_prefix prefix l' = true.
Proof.
  unfold has_prefix. intros H Hl. apply existsb_exists in Hl as [a [Ha E]].
  apply existsb_exists. exists a. auto.
Qed.

(** X14.  The blessed prefix of a duplicate set is the first entry of the
    priority list under which the set has a member: no entry before it has
    one.  It depends on which assets are members only, not on their order
    or their number of occurrences. *)
Theorem blessed_prefix_first (priority_list : list string) (dup_set other : list Asset)
        (b : string) :
  blessed_prefix_of priority_list dup_set = Some b ->
  (forall a, In a dup_set <-> In a other) ->
  (exists before after,
     priority_list = before ++ b :: after
     /\ (exists a, In a dup_set /\ pfx (originalPath a) = b)
     /\ forall p a, In p before -> In a dup_set -> pfx (originalPath a) <> p)
  /\ blessed_prefix_of priority_list other = Some b.
Proof.
  intros H Hsame. split.
  - unfold blessed_prefix_of in H.
    destruct (find_first _ _ _ H) as [before [after [E [Hb Hnone]]]].
    exists before, after. split; [assumption|]. split.
    + unfold has_prefix in Hb. apply existsb_exists in Hb as [a [Ha Eb]].
      apply String.eqb_eq in Eb. now exists a.
    + intros p a Hp Ha Epfx. specialize (Hnone p Hp). unfold has_prefix in Hnone.
      assert (T : existsb (fun ass => String.eqb (pfx (originalPath ass)) p) dup_set = true).
      { apply existsb_exists. exists a. split; [assumption|now apply String.eqb_eq]. }
      congruence.
  - rewrite <- H. unfold blessed_prefix_of.
    assert (E : forall p, has_prefix p other = has_prefix p dup_set).
    { intro p. destruct (has_prefix p dup_set) eqn:E1.
      - eapply has_prefix_members; [|exact E1]. intros a. apply Hsame.
      - destruct (has_prefix p other) eqn:E2; [|reflexivity].
        rewrite <- E1. symmetry. eapply has_prefix_members; [|exact E2].
        intros a. apply Hsame. }
    clear H. induction priority_list as [|p ps IH]; simpl; [reflexivity|].
    rewrite E. destruct (has_prefix p dup_set); [reflexivity|exact IH].
Qed.

Lemma blessed_prefix_first_witness :
  (blessed_prefix_of path_prefix_priority_list
     [misc_copy timeline; wedding_small timeline] = Some wedding
   /\ forall a, In a [misc_copy timeline; wedding_small timeline]
                <-> In a [wedding_small timeline; misc_copy timeline; wedding_small timeline])
  /\ ((exists before after,
         path_prefix_priority_list = before ++ wedding :: after
         /\ (exists a, In a [misc_copy timeline; wedding_small timeline]
                       /\ pfx (originalPath a) = wedding)
         /\ forall p a, In p before -> In a [misc_copy timeline; wedding_small timeline] ->
                        pfx (originalPath a) <> p)
      /\ blessed_prefix_of path_prefix_priority_list
           [wedding_small timeline; misc_copy timeline; wedding_small timeline]
         = Some wedding).
Proof.
  assert (H2 : forall a, In a [misc_copy timeline; wedding_small timeline]
                <-> In a [wedding_small timeline; misc_copy timeline; wedding_small timeline]).
  { intro a. simpl. tauto. }
  split; [split; [reflexivity|exact H2]|].
  exact (blessed_prefix_first path_prefix_priority_list
           [misc_copy timeline; wedding_small timeline]
           [wedding_small timeline; misc_copy timeline; wedding_small timeline]
           wedding eq_refl H2).
Defined.

(** ** The requests of [dedup] *)

Lemma dup_cache_fold_issue (requests : list Request) (st : ImmichApi.t) :
  dup_cache (fold_left issue requests st) = dup_cache st.
Proof.
  revert st; induction requests as [|r rs IH]; intro st; simpl; [reflexivity|].
  now rewrite IH.
Qed.

Lemma filter_ids_incl (p : Asset -> bool) (dup_set : list Asset) :
  incl (map id (filter p dup_set)) (map id dup_set).
Proof.
  intros x Hx. apply in_map_iff in Hx as [a [<- Ha]].
  apply filter_In in Ha as [Ha _]. now apply in_map.
Qed.

Lemma truthy_list_nonempty {A : Type} (l : list A) : Py.truthy_list l = true -> l <> [].
Proof. destruct l; [discriminate|discriminate]. Qed.

(** X16.  For one duplicate set [dedup] sends at most three requests, all
    of them visibility updates with a batch of ids that is not empty and
    holds ids of members of the set only.  The visibility is [archive],
    or it is [timeline] and the batch is the id of one member that is
    under the blessed prefix of the set: nothing outside the blessed prefix
    is ever put on the timeline. *)
Theorem dedup_set_requests (priority_list : list string) (dup_set : list Asset)
        (st : ImmichApi.t) :
  exists requests,
    fst (dedup_set priority_list dup_set st) = Some tt
    /\ sent (snd (dedup_set priority_list dup_set st)) = sent st ++ requests
    /\ length requests <= 3
    /\ forall r, In r requests ->
         exists ids v,
           r = PutAssets ids v
           /\ ids <> []
           /\ incl ids (map id dup_set)
           /\ (v = archive
               \/ (v = timeline
                   /\ exists keeper b,
                        ids = [id keeper]
                        /\ In keeper dup_set
                        /\ blessed_prefix_of priority_list dup_set = Some b
                        /\ pfx (originalPath keeper) = b)).
Proof.
  exists (plan priority_list dup_set). rewrite dedup_set_run. cbn [fst snd].
  rewrite sent_fold_issue. split; [reflexivity|]. split; [reflexivity|].
  unfold plan.
  destruct (blessed_prefix_of priority_list dup_set) as [b|] eqn:Hb;
    [|split; [simpl; lia|contradiction]].
  destruct (negb (Py.truthy_str b)); [split; [simpl; lia|contradiction]|].
  assert (Hcross : length (cross_location_batch b dup_set) <= 1
                   /\ forall r, In r (cross_location_batch b dup_set) ->
                        exists ids v, r = PutAssets ids v /\ ids <> []
                                      /\ incl ids (map id dup_set) /\ v = archive).
  { unfold cross_location_batch.
    destruct (Py.truthy_list (cross_location b dup_set)) eqn:Ht;
      [|split; [simpl; lia|contradiction]].
    split; [simpl; lia|]. intros r [<-|[]]. eexists _, _. split; [reflexivity|].
    split; [now apply truthy_list_nonempty|]. split; [apply filter_ids_incl|reflexivity]. }
  destruct Hcross as [Hc1 Hc2].
  destruct (Nat.ltb 1 (length (blessed_copies_of b dup_set))) eqn:Hlen.
  2:{ rewrite app_nil_r. split; [lia|]. intros r Hr.
      destruct (Hc2 r Hr) as [ids [v [E [Hne [Hincl Hv]]]]].
      exists ids, v. auto. }
  destruct (best_copy_some_in (blessed_copies_of b dup_set)) as [keeper [Hk Hkin]].
  { intro Hnil. rewrite Hnil in Hlen. discriminate. }
  rewrite Hk. apply blessed_copies_in in Hkin as [Hkin Hkb].
  unfold keeper_batches.
  destruct (Py.truthy_list (all_but keeper dup_set)) eqn:Ht.
  2:{ rewrite app_nil_r. split; [lia|]. intros r Hr.
      destruct (Hc2 r Hr) as [ids [v [E [Hne [Hincl Hv]]]]].
      exists ids, v. auto. }
  split; [rewrite length_app; simpl; lia|].
  intros r Hr. apply in_app_or in Hr as [Hr|[<-|[<-|[]]]].
  - destruct (Hc2 r Hr) as [ids [v [E [Hne [Hincl Hv]]]]]. exists ids, v. auto.
  - eexists _, _. split; [reflexivity|]. split; [now apply truthy_list_nonempty|].
    split; [apply filter_ids_incl|now left].
  - eexists _, _. split; [reflexivity|]. split; [discriminate|]. split.
    + intros x [<-|[]]. now apply in_map.
    + right. split; [reflexivity|]. exists keeper, b. auto.
Qed.

(** ** A second run on the same client *)

Lemma cross_batch_apply_same_id (b : string) (dup_set : list Asset) (a a' : Asset) :
  NoDup (map id dup_set) -> In a dup_set -> id a' = id a ->
  apply_all (cross_location_batch b dup_set) a' =
  if is_timeline a && negb (in_prefix b a) then with_visibility archive a' else a'.
Proof.
  intros Hnd Ha Hid.
  rewrite <- (set_visibility_filter
                (fun ass => is_timeline ass && negb (in_prefix b ass))
                dup_set archive a a' Hnd Ha Hid).
  unfold cross_location_batch. fold (cross_location b dup_set).
  destruct (Py.truthy_list (cross_location b dup_set)) eqn:Ht; [reflexivity|].
  apply truthy_list_false in Ht. now rewrite Ht.
Qed.

Lemma plan_apply_settle (priority_list : list string) (dup_set : list Asset) (a a' : Asset) :
  NoDup (map id dup_set) -> In a dup_set -> id a' = id a ->
  apply_all (plan priority_list dup_set) a' = settle priority_list dup_set a a'.
Proof.
  intros Hnd Ha Hid. unfold plan, settle.
  destruct (blessed_prefix_of priority_list dup_set) as [b|]; [|reflexivity].
  destruct (negb (Py.truthy_str b)); [reflexivity|].
  rewrite apply_all_app, (cross_batch_apply_same_id b dup_set a a' Hnd Ha Hid).
  destruct (Nat.ltb 1 (length (blessed_copies_of b dup_set))) eqn:Hlen; [|reflexivity].
  apply Nat.ltb_lt in Hlen.
  destruct (best_copy_some_in (blessed_copies_of b dup_set)) as [keeper [Hk Hkin]].
  { intro Hnil. rewrite Hnil in Hlen. simpl in Hlen. lia. }
  rewrite Hk. apply blessed_copies_in in Hkin as [Hkin _].
  rewrite (keeper_batches_apply keeper dup_set a _ Hnd Hkin Ha).
  - destruct (Asset_eqb a keeper), (is_timeline a && negb (in_prefix b a)); reflexivity.
  - destruct (is_timeline a && negb (in_prefix b a)); simpl; assumption.
  - eapply all_but_nonempty; eassumption.
Qed.

Lemma settle_id (priority_list : list string) (dup_set : list Asset) (a a' : Asset) :
  id (settle priority_list dup_set a a') = id a'.
Proof.
  unfold settle.
  destruct (blessed_prefix_of priority_list dup_set) as [b|]; [|reflexivity].
  destruct (negb (Py.truthy_str b)); [reflexivity|].
  destruct (Nat.ltb 1 (length (blessed_copies_of b dup_set))).
  - destruct (best_copy (blessed_copies_of b dup_set)) as [keeper|]; [|reflexivity].
    now destruct (Asset_eqb a keeper).
  - now destruct (is_timeline a && negb (in_prefix b a)).
Qed.

Lemma settle_twice (priority_list : list string) (dup_set : list Asset) (a a' : Asset) :
  settle priority_list dup_set a (settle priority_list dup_set a a') =
  settle priority_list dup_set a a'.
Proof.
  unfold settle.
  destruct (blessed_prefix_of priority_list dup_set) as [b|]; [|reflexivity].
  destruct (negb (Py.truthy_str b)); [reflexivity|].
  destruct (Nat.ltb 1 (length (blessed_copies_of b dup_set))).
  - destruct (best_copy (blessed_copies_of b dup_set)) as [keeper|]; [|reflexivity].
    now destruct (Asset_eqb a keeper).
  - now destruct (is_timeline a && negb (in_prefix b a)).
Qed.

Lemma plans_on_same_id (priority_list : list string) (sets : list DupSet)
      (d : DupSet) (a a' : Asset) :
  NoDup (all_ids sets) -> In d sets -> In a (assets d) -> id a' = id a ->
  apply_all (flat_map (plan priority_list) (map assets sets)) a' =
  apply_all (plan priority_list (assets d)) a'.
Proof.
  intros Hnd Hd Ha Hid. apply in_split in Hd as [before [after ->]].
  unfold all_ids in Hnd. rewrite flat_map_app in Hnd. simpl in Hnd.
  rewrite !map_app in Hnd.
  rewrite map_app, flat_map_app. simpl. rewrite !apply_all_app.
  assert (Hin : In (id a') (map id (assets d))) by (rewrite Hid; now apply in_map).
  rewrite (plans_foreign priority_list before a').
  - apply plans_foreign. unfold all_ids. intro Hafter.
    rewrite apply_all_id in Hafter.
    apply NoDup_app_remove_l in Hnd.
    eapply NoDup_app_disjoint; eassumption.
  - unfold all_ids. intro Hbefore.
    eapply NoDup_app_disjoint; [exact Hnd|exact Hbefore|].
    apply in_or_app. now left.
Qed.

(** X17.  [dedup] run a second time on the same client, whose cache still
    holds the listing as first fetched, sends the visibility requests of
    the first run again, in the same order, and does not fetch the
    duplicates again; when the assets of the listing have distinct ids,
    the listing on the service is afterwards as the first run left it. *)
Theorem dedup_again_same_client (priority_list : list string) (srv : Server) :
  duplicates srv <> [] ->
  exists requests,
    sent (snd (dedup priority_list (init srv))) = GetDuplicates :: requests
    /\ sent (snd (dedup priority_list (snd (dedup priority_list (init srv))))) =
       GetDuplicates :: requests ++ requests
    /\ (NoDup (all_ids (duplicates srv)) ->
        duplicates (server (snd (dedup priority_list
                                       (snd (dedup priority_list (init srv))))))
        = duplicates (server (snd (dedup priority_list (init srv))))).
Proof.
  intro Hne.
  exists (flat_map (plan priority_list) (map assets (duplicates srv))).
  rewrite dedup_run. cbn [snd].
  set (R := flat_map (plan priority_list) (map assets (duplicates srv))).
  assert (Hcache : dup_cache (fold_left issue R (fetched srv)) = duplicates srv)
    by now rewrite dup_cache_fold_issue.
  assert (Hrun : dedup priority_list (fold_left issue R (fetched srv)) =
                 (Some PyNone, fold_left issue R (fold_left issue R (fetched srv)))).
  { unfold dedup, bind. rewrite dups_filled by now rewrite Hcache.
    rewrite Hcache, for_each_dedup_set. reflexivity. }
  rewrite Hrun. cbn [snd]. rewrite !sent_fold_issue. simpl.
  split; [reflexivity|]. split; [reflexivity|].
  intro Hnd. rewrite !duplicates_fold_issue. simpl. rewrite map_map.
  apply map_ext_in. intros d Hd. simpl. f_equal. rewrite map_map.
  apply map_ext_in. intros a Ha. subst R.
  assert (Hd' : NoDup (map id (assets d))) by (eapply NoDup_all_ids_set; eassumption).
  rewrite (plans_on_same_id priority_list (duplicates srv) d a (apply_all _ a))
    by (try apply apply_all_id; assumption).
  rewrite (plans_on_member priority_list (duplicates srv) d a Hnd Hd Ha).
  rewrite (plan_apply_settle priority_list (assets d) a a Hd' Ha eq_refl).
  rewrite (plan_apply_settle priority_list (assets d) a _ Hd' Ha (settle_id _ _ _ _)).
  apply settle_twice.
Qed.

Lemma dedup_again_same_client_witness :
  duplicates (catalog_of pair_and_outsider) <> []
  /\ exists requests,
       sent (snd (dedup path_prefix_priority_list (init (catalog_of pair_and_outsider))))
       = GetDuplicates :: requests
       /\ sent (snd (dedup path_prefix_priority_list
                           (snd (dedup path_prefix_priority_list
                                       (init (catalog_of pair_and_outsider)))))) =
          GetDuplicates :: requests ++ requests
       /\ (NoDup (all_ids (duplicates (catalog_of pair_and_outsider))) ->
           duplicates
             (server (snd (dedup path_prefix_priority_list
                                 (snd (dedup path_prefix_priority_list
                                             (init (catalog_of pair_and_outsider)))))))
           = duplicates
               (server (snd (dedup path_prefix_priority_list
                                   (init (catalog_of pair_and_outsider)))))).
Proof.
  assert (H : duplicates (catalog_of pair_and_outsider) <> []) by discriminate.
  split; [assumption|].
  exact (dedup_again_same_client path_prefix_priority_list (catalog_of pair_and_outsider) H).
Defined.

(** ** More on the quality scorer *)



(** The copy with more bytes and the copy with more pixels get 2 and 8;
    a copy whose size is recorded as negative gets nothing for it, though
    it is the only candidate. *)
Example scores_of_floor_examples :
  map (floor_score heavy_and_sharp) heavy_and_sharp = [2%Z; 8%Z]
  /\ scores_of heavy_and_sharp = [2%Z; 8%Z]
  /\ scores_of [photo "A" "/photos/wedding/a.jpg" timeline (-1) 20 10] = [8%Z]
  /\ score [photo "A" "/photos/wedding/a.jpg" timeline (-1) 20 10]
           (photo "A" "/photos/wedding/a.jpg" timeline (-1) 20 10) = 10%Z.
Proof. repeat split; reflexivity. Qed.

(** X19.  When the candidates' visibilities are as [dedup] sets them for
    the keeper [best_copy] has returned, the keeper on the timeline and
    every other candidate archived, [best_copy] computes the same scores
    and returns the same keeper. *)
Theorem best_copy_settled (candidates : list Asset) (keeper : Asset) :
  best_copy candidates = Some keeper ->
  scores_of (map (keep_only keeper) candidates) = scores_of candidates
  /\ best_copy (map (keep_only keeper) candidates) = Some (with_visibility timeline keeper).
Proof.
  intro H. split.
  - apply scores_of_map; intro a; unfold keep_only; now destruct (Asset_eqb a keeper).
  - rewrite (best_copy_keep_only candidates keeper H).
    unfold keep_only. now rewrite Asset_eqb_refl.
Qed.

Lemma best_copy_settled_witness :
  best_copy [wedding_small timeline; wedding_large archive] = Some (wedding_large archive)
  /\ scores_of (map (keep_only (wedding_large archive))
                    [wedding_small timeline; wedding_large archive])
     = scores_of [wedding_small timeline; wedding_large archive]
  /\ best_copy (map (keep_only (wedding_large archive))
                    [wedding_small timeline; wedding_large archive])
     = Some (with_visibility timeline (wedding_large archive)).
Proof.
  split; [reflexivity|].
  exact (best_copy_settled [wedding_small timeline; wedding_large archive]
                           (wedding_large archive) eq_refl).
Defined.

(** ** More on [pfx] *)

(** X20.  The prefix [pfx] returns is a prefix of the path, it has three
    fields between slashes at most, and it is its own prefix: [pfx] is
    idempotent. *)
Theorem pfx_idempotent (path : string) :
  PyStr.startswith path (pfx path) = true
  /\ length (Py.split slash (pfx path)) <= 3
  /\ pfx (pfx path) = pfx path.
Proof.
  assert (Hfields : Py.split slash (pfx path) = firstn 3 (Py.split slash path)).
  { unfold pfx. apply split_join.
    - pose proof (split_nonempty path). destruct (Py.split slash path); [contradiction|].
      discriminate.
    - apply Forall_firstn, split_fields. }
  split; [|split].
  - unfold PyStr.startswith, pfx. rewrite <- (join_split path) at 2.
    apply prefix_join_firstn.
  - rewrite Hfields, length_firstn. lia.
  - unfold pfx at 1. rewrite Hfields.
    rewrite firstn_firstn. reflexivity.
Qed.

(** ** The loops at the end of [oneoff.py] *)

Lemma restore_set_run (dup_set : list Asset) (st : ImmichApi.t) :
  restore_set dup_set st = (Some tt, fold_left issue (restore_plan dup_set) st).
Proof.
  unfold restore_set, restore_plan. now destruct (all_archived dup_set).
Qed.

Lemma for_each_restore_set (sets : list (list Asset)) (st : ImmichApi.t) :
  for_each sets restore_set st =
  (Some tt, fold_left issue (flat_map restore_plan sets) st).
Proof.
  revert st; induction sets as [|ds sets IH]; intro st; simpl; [reflexivity|].
  unfold bind. rewrite restore_set_run, IH, fold_issue_app. reflexivity.
Qed.

Lemma restore_run (srv : Server) :
  restore_archived_sets (init srv) =
  (Some tt, fold_left issue (flat_map restore_plan (map assets (duplicates srv)))
                      (fetched srv)).
Proof.
  unfold restore_archived_sets, bind. rewrite dups_fresh, for_each_restore_set.
  reflexivity.
Qed.

Lemma local_plans_on_member (plan_of : list Asset -> list Request) (sets : list DupSet)
      (d : DupSet) (a : Asset) :
  (forall ds ids v, In (PutAssets ids v) (plan_of ds) -> incl ids (map id ds)) ->
  NoDup (all_ids sets) -> In d sets -> In a (assets d) ->
  apply_all (flat_map plan_of (map assets sets)) a = apply_all (plan_of (assets d)) a.
Proof.
  intros Hlocal Hnd Hd Ha.
  assert (Hforeign : forall (others : list DupSet) (x : Asset),
             ~ In (id x) (all_ids others) ->
             apply_all (flat_map plan_of (map assets others)) x = x).
  { intros others x Hnot. apply apply_all_foreign. intros ids v Hin Hid.
    apply in_flat_map in Hin as [ds [Hds Hin]].
    apply in_map_iff in Hds as [d' [<- Hd']].
    apply Hlocal in Hin. apply Hnot. unfold all_ids. apply Hin in Hid.
    apply in_map_iff in Hid as [y [Ey Hy]]. rewrite <- Ey. apply in_map.
    apply in_flat_map. now exists d'. }
  apply in_split in Hd as [before [after ->]].
  unfold all_ids in Hnd. rewrite flat_map_app in Hnd. simpl in Hnd.
  rewrite !map_app in Hnd.
  rewrite map_app, flat_map_app. simpl. rewrite !apply_all_app.
  assert (Hin : In (id a) (map id (assets d))) by now apply in_map.
  rewrite (Hforeign before a).
  - apply Hforeign. unfold all_ids. intro Hafter. rewrite apply_all_id in Hafter.
    apply NoDup_app_remove_l in Hnd. eapply NoDup_app_disjoint; eassumption.
  - unfold all_ids. intro Hbefore.
    eapply NoDup_app_disjoint; [exact Hnd|exact Hbefore|].
    apply in_or_app. now left.
Qed.

Lemma restore_plan_local (ds : list Asset) (ids : list string) (v : string) :
  In (PutAssets ids v) (restore_plan ds) -> incl ids (map id ds).
Proof.
  unfold restore_plan. destruct (all_archived ds); [|contradiction].
  intros [E|[]]. injection E as <- <-. apply incl_refl.
Qed.

Lemma restore_plan_apply (dup_set : list Asset) :
  map (apply_all (restore_plan dup_set)) dup_set = restored dup_set.
Proof.
  unfold restore_plan, restored. destruct (all_archived dup_set); [|apply map_id].
  apply map_ext_in. intros a Ha. unfold apply_all. simpl. unfold set_visibility.
  assert (E : existsb (String.eqb (id a)) (map id dup_set) = true).
  { apply existsb_exists. exists (id a). split; [now apply in_map|apply String.eqb_refl]. }
  now rewrite E.
Qed.

Lemma restore_duplicates (srv : Server) :
  NoDup (all_ids (duplicates srv)) ->
  duplicates (server (snd (restore_archived_sets (init srv)))) =
  map (fun d => mkDupSet (ds_duplicateId d) (restored (assets d))) (duplicates srv).
Proof.
  intro Hnd. rewrite restore_run. cbn [snd]. rewrite duplicates_fold_issue. simpl.
  apply map_ext_in. intros d Hd. f_equal.
  rewrite <- restore_plan_apply. apply map_ext_in. intros a Ha.
  now apply (local_plans_on_member restore_plan _ d a restore_plan_local).
Qed.

Lemma flat_map_restore_plan (sets : list (list Asset)) :
  flat_map restore_plan sets =
  map (fun ds => PutAssets (map id ds) timeline) (filter all_archived sets).
Proof.
  induction sets as [|ds sets IH]; simpl; [reflexivity|].
  unfold restore_plan at 1. destruct (all_archived ds); simpl; now rewrite IH.
Qed.

(** X21.  The last loop of the file, run by a new client: for every
    duplicate set whose members are all archived, in the order of the
    listing, it sends one request that puts all the members on the
    timeline, and for no other set; their number is the count the loop
    before it prints.  When the assets of the listing have distinct ids,
    afterwards every member of such a set is on the timeline and every
    other set is as it was. *)
Theorem restore_archived_sets_run (srv : Server) :
  sent (snd (restore_archived_sets (init srv))) =
  GetDuplicates
    :: map (fun ds => PutAssets (map id ds) timeline)
           (filter all_archived (map assets (duplicates srv)))
  /\ fst (count_archived_sets (init srv)) =
     Some (length (filter all_archived (map assets (duplicates srv))))
  /\ (NoDup (all_ids (duplicates srv)) ->
      duplicates (server (snd (restore_archived_sets (init srv)))) =
      map (fun d =>
             mkDupSet (ds_duplicateId d)
                      (if all_archived (assets d)
                       then map (with_visibility timeline) (assets d)
                       else assets d))
          (duplicates srv)).
Proof.
  split; [|split].
  - rewrite restore_run. cbn [snd]. rewrite sent_fold_issue, flat_map_restore_plan.
    reflexivity.
  - unfold count_archived_sets, bind. now rewrite dups_fresh.
  - intro Hnd. now rewrite restore_duplicates.
Qed.






(** ** [subdirs] *)

Lemma set_add_in (x y : string) (subs : list string) :
  In y (set_add x subs) <-> y = x \/ In y subs.
Proof.
  unfold set_add. destruct (existsb (String.eqb x) subs) eqn:E.
  - split; [now right|]. intros [->|H]; [now apply in_by_eqb|assumption].
  - rewrite in_app_iff. simpl. split.
    + intros [H|[<-|[]]]; auto.
    + intros [->|H]; auto.
Qed.

Lemma set_add_NoDup (x : string) (subs : list string) :
  NoDup subs -> NoDup (set_add x subs).
Proof.
  intro H. unfold set_add. destruct (existsb (String.eqb x) subs) eqn:E; [assumption|].
  apply NoDup_app; [assumption|repeat constructor; auto|].
  intros y Hy [<-|[]]. now apply (not_in_by_eqb x subs E).
Qed.

Lemma first_field_no_slash (s : string) :
  no_slash (hd EmptyString (Py.split slash s)) = true.
Proof.
  pose proof (split_fields s) as H.
  destruct (Py.split slash s); [reflexivity|]. now inversion H.
Qed.

Lemma subdirs_loop (p : string) (fs acc : list string) :
  NoDup acc ->
  NoDup (fold_left (subdirs_step p) fs acc)
  /\ forall sub, In sub (fold_left (subdirs_step p) fs acc) <->
       In sub acc
       \/ exists folder,
            In folder fs /\ PyStr.startswith folder p = true
            /\ sub = hd EmptyString (Py.split slash (drop (String.length p) folder)).
Proof.
  revert acc; induction fs as [|f fs IH]; intros acc Hacc; simpl.
  - split; [assumption|]. intro sub. split; [now left|].
    intros [H|[folder [[] _]]]. assumption.
  - assert (Hstep : NoDup (subdirs_step p acc f)).
    { unfold subdirs_step. destruct (PyStr.startswith f p); [|assumption].
      now apply set_add_NoDup. }
    destruct (IH _ Hstep) as [Hnd Hin]. split; [exact Hnd|].
    intro sub. rewrite Hin. unfold subdirs_step at 1.
    destruct (PyStr.startswith f p) eqn:Hf.
    + rewrite set_add_in. split.
      * intros [[->|H]|[folder [Hfo [Hs E]]]]; auto.
        -- right. exists f. auto.
        -- right. exists folder. auto.
      * intros [H|[folder [[<-|Hfo] [Hs E]]]]; auto.
        right. exists folder. auto.
    + split.
      * intros [H|[folder [Hfo [Hs E]]]]; auto. right. exists folder. auto.
      * intros [H|[folder [[<-|Hfo] [Hs E]]]]; auto; [congruence|].
        right. exists folder. auto.
Qed.

(** X23.  [subdirs] returns distinct names, none of which holds a slash:
    each is the first field, after the normalised path, of a folder that
    starts with the normalised path, and every such field is returned.
    Giving the path already normalised changes nothing. *)
Theorem subdirs_fields (folders : list string) (path : string) :
  NoDup (subdirs folders path)
  /\ (forall sub, In sub (subdirs folders path) <->
        exists folder,
          In folder folders
          /\ PyStr.startswith folder (fix_path path) = true
          /\ sub = hd EmptyString
                      (Py.split slash (drop (String.length (fix_path path)) folder)))
  /\ (forall sub, In sub (subdirs folders path) -> no_slash sub = true)
  /\ subdirs folders (fix_path path) = subdirs folders path.
Proof.
  change (subdirs folders path)
    with (fold_left (subdirs_step (fix_path path)) folders []).
  destruct (subdirs_loop (fix_path path) folders [] (NoDup_nil _)) as [Hnd Hin].
  split; [exact Hnd|]. split; [|split].
  - intro sub. rewrite Hin. split.
    + intros [[]|H]. exact H.
    + intro H. now right.
  - intros sub Hs. apply Hin in Hs as [[]|[folder [_ [_ ->]]]].
    apply first_field_no_slash.
  - unfold subdirs. now rewrite fix_path_fixed.
Qed.

(** ** The requests of a run, set by set *)

